(** * Decorator combinators of [deco.py]

    A shallow embedding of the module's combinators ([disable],
    [decorator], [countcalls], [memo], [n_ary], [trace]) and of the three
    decorated functions ([foo], [bar], [fib]).

    Python closures are split in two: what the combinator does when it is
    applied (allocating the wrapper's function object and its closure
    cells, forwarding metadata with [functools.wraps]) and what the
    produced [wrapper] does on each call.  Mutable state (function
    attributes, the [level] cell, the [cache] dictionary) lives in an
    explicit store that every call threads through; printed lines are
    collected in call order. *)

From Stdlib Require Import ZArith String Ascii List DecimalString Lia OrderedTypeEx.
From stdpp Require Import base gmap strings list sorting.

Open Scope Z_scope.
Open Scope string_scope.
Open Scope list_scope.

#[local] Set Warnings "-register-all".

(** ** Values *)

(** The fragment of Python values that arguments and results range over:
    [None], booleans, unbounded integers, tuples and lists.  Lists are the
    unhashable values of the fragment. *)
Inductive value : Type :=
  | VNone
  | VBool (b : bool)
  | VInt (z : Z)
  | VTuple (items : list value)
  | VList (items : list value).

(** Exceptions a call can end with. *)
Inductive exn : Type :=
  | TypeError
  | AttributeError
  | KeyError
  | OverflowError
  | MemoryError
  | RecursionError
  | Exception (tag : string).

Inductive outcome (A : Type) : Type :=
  | Ret (a : A)
  | Raise (e : exn).
Arguments Ret {A} a.
Arguments Raise {A} e.

(** Keyword arguments of one call, in call order; the names of one call
    are pairwise distinct. *)
Definition kwargs : Type := list (string * value).

Definition bool_to_Z (b : bool) : Z := if b then 1 else 0.

(** The integer a value stands for in arithmetic ([bool] is a subclass of
    [int]). *)
Definition as_int (v : value) : option Z :=
  match v with
  | VInt z => Some z
  | VBool b => Some (bool_to_Z b)
  | _ => None
  end.

(** Python's [==] on the fragment. *)
Fixpoint py_eq (v w : value) {struct v} : bool :=
  let fix all2 (l : list value) (r : list value) {struct l} : bool :=
    match l, r with
    | [], [] => true
    | x :: l', y :: r' => py_eq x y && all2 l' r'
    | _, _ => false
    end in
  match v, w with
  | VNone, VNone => true
  | VBool a, VBool b => Bool.eqb a b
  | VBool a, VInt z => Z.eqb (bool_to_Z a) z
  | VInt z, VBool b => Z.eqb z (bool_to_Z b)
  | VInt a, VInt b => Z.eqb a b
  | VTuple l, VTuple r => all2 l r
  | VList l, VList r => all2 l r
  | _, _ => false
  end.

Fixpoint py_eq_list (l r : list value) : bool :=
  match l, r with
  | [], [] => true
  | x :: l', y :: r' => py_eq x y && py_eq_list l' r'
  | _, _ => false
  end.

(** Whether [hash] accepts the value. *)
Fixpoint hashable (v : value) : bool :=
  match v with
  | VList _ => false
  | VTuple l => forallb hashable l
  | _ => true
  end.

(** ** Rendering *)

Definition repr_int (z : Z) : string := NilZero.string_of_int (Z.to_int z).

Fixpoint join (sep : string) (l : list string) : string :=
  match l with
  | [] => ""
  | [s] => s
  | s :: rest => s +:+ sep +:+ join sep rest
  end.

(** [repr]; on this fragment [str] gives the same text. *)
Fixpoint py_repr (v : value) : string :=
  match v with
  | VNone => "None"
  | VBool true => "True"
  | VBool false => "False"
  | VInt z => repr_int z
  | VTuple [x] => "(" +:+ py_repr x +:+ ",)"
  | VTuple l => "(" +:+ join ", " (map py_repr l) +:+ ")"
  | VList l => "[" +:+ join ", " (map py_repr l) +:+ "]"
  end.

Definition py_str (v : value) : string := py_repr v.

(** [s * n] for a string [s]: empty when [n <= 0]. *)
Fixpoint repeat_string (s : string) (n : nat) : string :=
  match n with
  | O => ""
  | S n' => s +:+ repeat_string s n'
  end.

Definition str_mul (s : string) (n : Z) : string := repeat_string s (Z.to_nat n).

(** ** Operators used by the decorated functions *)

Definition repeat_items (l : list value) (n : Z) : list value :=
  concat (repeat l (Z.to_nat n)).

Definition py_add (a b : value) : outcome value :=
  match a, b with
  | VTuple l, VTuple r => Ret (VTuple (l ++ r))
  | VList l, VList r => Ret (VList (l ++ r))
  | _, _ =>
      match as_int a, as_int b with
      | Some x, Some y => Ret (VInt (x + y))
      | _, _ => Raise TypeError
      end
  end.

Definition py_sub (a b : value) : outcome value :=
  match as_int a, as_int b with
  | Some x, Some y => Ret (VInt (x - y))
  | _, _ => Raise TypeError
  end.

(** [seq * n]: the count must fit the interpreter's index type (64 bits
    here), else [OverflowError]; a count below 1 gives the empty sequence;
    a result longer than the index type can say is a [MemoryError].
    Memory for shorter results is taken to suffice. *)
Definition seq_mul (l : list value) (n : Z) : outcome (list value) :=
  if Z.ltb n (- 2 ^ 63) || Z.ltb (2 ^ 63 - 1) n then Raise OverflowError
  else if Z.ltb 0 n && Z.ltb (2 ^ 63 - 1) (Z.of_nat (length l) * n) then Raise MemoryError
  else Ret (repeat_items l n).

Definition py_mul (a b : value) : outcome value :=
  match a, b with
  | VTuple l, _ =>
      match as_int b with
      | Some n =>
          match seq_mul l n with
          | Ret r => Ret (VTuple r)
          | Raise e => Raise e
          end
      | None => Raise TypeError
      end
  | VList l, _ =>
      match as_int b with
      | Some n =>
          match seq_mul l n with
          | Ret r => Ret (VList r)
          | Raise e => Raise e
          end
      | None => Raise TypeError
      end
  | _, VTuple r =>
      match as_int a with
      | Some n =>
          match seq_mul r n with
          | Ret r' => Ret (VTuple r')
          | Raise e => Raise e
          end
      | None => Raise TypeError
      end
  | _, VList r =>
      match as_int a with
      | Some n =>
          match seq_mul r n with
          | Ret r' => Ret (VList r')
          | Raise e => Raise e
          end
      | None => Raise TypeError
      end
  | _, _ =>
      match as_int a, as_int b with
      | Some x, Some y => Ret (VInt (x * y))
      | _, _ => Raise TypeError
      end
  end.

(** [a <= b] where one side is an integer. *)
Definition py_le_int (a : value) (b : Z) : outcome bool :=
  match as_int a with
  | Some x => Ret (Z.leb x b)
  | None => Raise TypeError
  end.

(** ** Store *)

Definition addr : Type := nat.

(** What a function attribute can hold: a value, or a reference to a
    function object ([__wrapped__]). *)
Inductive attr : Type :=
  | AVal (v : value)
  | AFun (a : addr).

(** A function object: the metadata [functools.wraps] forwards and the
    object's [__dict__]. *)
Record function : Type := Function {
  fn_name : string;
  fn_qualname : string;
  fn_doc : option string;
  fn_dict : gmap string attr
}.

(** The canonical key [memo] builds: the positional arguments and the
    keyword items sorted by name. *)
Definition key : Type := (list value * list (string * value))%type.

Record store : Type := Store {
  functions : gmap addr function;
  cells : gmap addr Z;
  dicts : gmap addr (list (key * value));
  next : addr
}.

Definition empty_store : store :=
  {| functions := ∅; cells := ∅; dicts := ∅; next := 0%nat |}.

Definition set_functions (f : gmap addr function) (st : store) : store :=
  {| functions := f; cells := cells st; dicts := dicts st; next := next st |}.
Definition set_cells (c : gmap addr Z) (st : store) : store :=
  {| functions := functions st; cells := c; dicts := dicts st; next := next st |}.
Definition set_dicts (d : gmap addr (list (key * value))) (st : store) : store :=
  {| functions := functions st; cells := cells st; dicts := d; next := next st |}.
Definition set_next (n : addr) (st : store) : store :=
  {| functions := functions st; cells := cells st; dicts := dicts st; next := n |}.

(** ** Computations *)

(** What running a computation gives: how it ended, the store it left and
    the lines it printed, oldest first. *)
Record reply (A : Type) : Type := Reply {
  res : outcome A;
  final : store;
  output : list string
}.
Arguments Reply {A} res final output.
Arguments res {A} r.
Arguments final {A} r.
Arguments output {A} r.

Definition M (A : Type) : Type := store -> reply A.

Definition ret {A} (a : A) : M A := fun st => Reply (Ret a) st [].

Definition raise {A} (e : exn) : M A := fun st => Reply (Raise e) st [].

Definition bind {A B} (m : M A) (f : A -> M B) : M B :=
  fun st =>
    match m st with
    | Reply (Ret a) st1 out1 =>
        match f a st1 with
        | Reply o st2 out2 => Reply o st2 (out1 ++ out2)
        end
    | Reply (Raise e) st1 out1 => Reply (Raise e) st1 out1
    end.

Notation "'let*' x := m 'in' k" := (bind m (fun x => k))
  (at level 10, x name, m at level 100, k at level 200).

Definition lift {A} (o : outcome A) : M A :=
  match o with
  | Ret a => ret a
  | Raise e => raise e
  end.

Definition print (line : string) : M unit := fun st => Reply (Ret tt) st [line].

(** What a function object does when called. *)
Definition callable : Type := list value -> kwargs -> M value.

(** A first-class function: its identity in the store and its behaviour. *)
Record pyfunc : Type := Func {
  fid : addr;
  fcall : callable
}.

(** *** Function objects *)

(** [def name(...)] : a new function object with an empty [__dict__]. *)
Definition def_function (name qualname : string) (doc : option string) : M addr :=
  fun st =>
    let a := next st in
    let f := {| fn_name := name; fn_qualname := qualname; fn_doc := doc;
                fn_dict := ∅ |} in
    Reply (Ret a)
      (set_next (S a) (set_functions (<[a := f]> (functions st)) st)) [].

(** [f.__name__] *)
Definition get_name (a : addr) : M string :=
  fun st =>
    match functions st !! a with
    | Some f => Reply (Ret (fn_name f)) st []
    | None => Reply (Raise AttributeError) st []
    end.

(** What [f.__dict__] holds under [name], if anything. *)
Definition attr_of (a : addr) (name : string) (st : store) : option attr :=
  match functions st !! a with
  | Some f => fn_dict f !! name
  | None => None
  end.

(** [f.attribute] for an attribute kept in [__dict__]. *)
Definition getattr (a : addr) (name : string) : M attr :=
  fun st =>
    match attr_of a name st with
    | Some x => Reply (Ret x) st []
    | None => Reply (Raise AttributeError) st []
    end.

Definition set_dict (d : gmap string attr) (f : function) : function :=
  {| fn_name := fn_name f; fn_qualname := fn_qualname f; fn_doc := fn_doc f;
     fn_dict := d |}.

(** [f.attribute = x] *)
Definition setattr (a : addr) (name : string) (x : attr) : M unit :=
  fun st =>
    match functions st !! a with
    | Some f =>
        Reply (Ret tt)
          (set_functions (<[a := set_dict (<[name := x]> (fn_dict f)) f]> (functions st)) st)
          []
    | None => Reply (Raise AttributeError) st []
    end.

(** [functools.update_wrapper(wrapper, wrapped)]: the wrapper takes the
    wrapped function's name, qualified name and docstring, its
    [__dict__] is updated with the wrapped function's, and
    [__wrapped__] is set last. *)
Definition update_wrapper (wrapper wrapped : addr) : M unit :=
  fun st =>
    match functions st !! wrapper, functions st !! wrapped with
    | Some w, Some f =>
        let w' := {| fn_name := fn_name f; fn_qualname := fn_qualname f;
                     fn_doc := fn_doc f;
                     fn_dict := <["__wrapped__" := AFun wrapped]>
                                  (fn_dict f ∪ fn_dict w) |} in
        Reply (Ret tt) (set_functions (<[wrapper := w']> (functions st)) st) []
    | _, _ => Reply (Raise AttributeError) st []
    end.

(** [@functools.wraps(func) def wrapper(...)] inside [owner]. *)
Definition def_wrapper (owner : string) (wrapped : addr) : M addr :=
  let* w := def_function "wrapper" (owner +:+ ".<locals>.wrapper") None in
  let* _ := update_wrapper w wrapped in
  ret w.

(** *** Closure cells *)

Definition new_cell (z : Z) : M addr :=
  fun st =>
    let a := next st in
    Reply (Ret a) (set_next (S a) (set_cells (<[a := z]> (cells st)) st)) [].

Definition read_cell (a : addr) : M Z :=
  fun st => Reply (Ret (default 0 (cells st !! a))) st [].

Definition write_cell (a : addr) (z : Z) : M unit :=
  fun st => Reply (Ret tt) (set_cells (<[a := z]> (cells st)) st) [].

Definition new_dict : M addr :=
  fun st =>
    let a := next st in
    Reply (Ret a) (set_next (S a) (set_dicts (<[a := []]> (dicts st)) st)) [].

Definition read_dict (a : addr) : M (list (key * value)) :=
  fun st => Reply (Ret (default [] (dicts st !! a))) st [].

Definition write_dict (a : addr) (d : list (key * value)) : M unit :=
  fun st => Reply (Ret tt) (set_dicts (<[a := d]> (dicts st)) st) [].

(** ** The combinators *)

(** *** [disable] and [decorator] *)

Definition disable_wrapper (func : pyfunc) : callable :=
  fun args kw => fcall func args kw.

Definition disable (func : pyfunc) : M pyfunc :=
  let* w := def_wrapper "disable" (fid func) in
  ret (Func w (disable_wrapper func)).

Definition decorator_wrapper (func : pyfunc) : callable :=
  fun args kw => fcall func args kw.

Definition decorator (func : pyfunc) : M pyfunc :=
  let* w := def_wrapper "decorator" (fid func) in
  ret (Func w (decorator_wrapper func)).

(** *** [countcalls] *)

(** [x + 1] for what the [calls] attribute holds. *)
Definition attr_succ (x : attr) : outcome attr :=
  match x with
  | AVal v =>
      match py_add v (VInt 1) with
      | Ret v' => Ret (AVal v')
      | Raise e => Raise e
      end
  | AFun _ => Raise TypeError
  end.

Definition countcalls_wrapper (wrapper : addr) (func : pyfunc) : callable :=
  fun args kw =>
    let* c := getattr wrapper "calls" in
    let* c' := lift (attr_succ c) in
    let* _ := setattr wrapper "calls" c' in
    fcall func args kw.

Definition countcalls_new (wrapped : addr) : M addr :=
  let* w := def_wrapper "countcalls" wrapped in
  let* _ := setattr w "calls" (AVal (VInt 0)) in
  ret w.

Definition countcalls (func : pyfunc) : M pyfunc :=
  let* w := countcalls_new (fid func) in
  ret (Func w (countcalls_wrapper w func)).

(** *** [memo] *)

Fixpoint insert_item (x : string * value) (l : list (string * value))
  : list (string * value) :=
  match l with
  | [] => [x]
  | y :: l' =>
      if String.leb (fst x) (fst y) then x :: y :: l' else y :: insert_item x l'
  end.

(** [tuple(sorted(kwargs.items()))] *)
Definition sorted_items (kw : kwargs) : list (string * value) :=
  foldr insert_item [] kw.

Fixpoint items_eq (l r : list (string * value)) : bool :=
  match l, r with
  | [] , [] => true
  | (k, v) :: l', (k', v') :: r' => String.eqb k k' && py_eq v v' && items_eq l' r'
  | _, _ => false
  end.

Definition key_eq (a b : key) : bool :=
  py_eq_list (fst a) (fst b) && items_eq (snd a) (snd b).

Definition hashable_key (k : key) : bool :=
  forallb hashable (fst k) && forallb (fun kv => hashable (snd kv)) (snd k).

(** [cache[k]] *)
Fixpoint cache_lookup (k : key) (d : list (key * value)) : option value :=
  match d with
  | [] => None
  | (k', v) :: d' => if key_eq k' k then Some v else cache_lookup k d'
  end.

(** [k in cache] *)
Definition cache_mem (k : key) (d : list (key * value)) : bool :=
  match cache_lookup k d with
  | Some _ => true
  | None => false
  end.

(** [cache[k] = v]: an equal key keeps its place and takes the new value. *)
Fixpoint cache_store (k : key) (v : value) (d : list (key * value))
  : list (key * value) :=
  match d with
  | [] => [(k, v)]
  | (k', v') :: d' =>
      if key_eq k' k then (k', v) :: d' else (k', v') :: cache_store k v d'
  end.

Definition memo_wrapper (cache : addr) (func : pyfunc) : callable :=
  fun args kw =>
    let all_args := (args, sorted_items kw) in
    if hashable_key all_args then
      let* d := read_dict cache in
      let* _ :=
        (if cache_mem all_args d then ret tt
         else
           let* r := fcall func args kw in
           let* d' := read_dict cache in
           write_dict cache (cache_store all_args r d')) in
      let* d'' := read_dict cache in
      match cache_lookup all_args d'' with
      | Some r => ret r
      | None => raise KeyError
      end
    else raise TypeError.

Definition memo_new (wrapped : addr) : M (addr * addr) :=
  let* cache := new_dict in
  let* w := def_wrapper "memo" wrapped in
  ret (cache, w).

Definition memo (func : pyfunc) : M pyfunc :=
  let* cw := memo_new (fid func) in
  ret (Func (snd cw) (memo_wrapper (fst cw) func)).

(** *** [n_ary] *)

(** One turn of the loop: [result = i if result is None else func(i, result)]. *)
Definition n_ary_step (func : pyfunc) (i result : value) : M value :=
  match result with
  | VNone => ret i
  | _ => fcall func [i; result] []
  end.

Fixpoint for_each (items : list value) (body : value -> value -> M value)
    (result : value) : M value :=
  match items with
  | [] => ret result
  | i :: rest =>
      let* result' := body i result in
      for_each rest body result'
  end.

Definition n_ary_wrapper (func : pyfunc) : callable :=
  fun args kw =>
    match kw with
    | [] => for_each (rev args) (n_ary_step func) VNone
    | _ :: _ => raise TypeError
    end.

(** [n_ary] defines its wrapper without [functools.wraps]. *)
Definition n_ary (func : pyfunc) : M pyfunc :=
  let* w := def_function "wrapper" "n_ary.<locals>.wrapper" None in
  ret (Func w (n_ary_wrapper func)).

(** *** [trace] *)

Definition trace_wrapper (delimiter : string) (level : addr) (func : pyfunc)
  : callable :=
  fun args kw =>
    let* l := read_cell level in
    let* name := get_name (fid func) in
    let* _ := print (str_mul delimiter l +:+ " --> " +:+ name
                       +:+ py_str (VTuple args)) in
    let* l := read_cell level in
    let* _ := write_cell level (l + 1) in
    let* result := fcall func args kw in
    let* l := read_cell level in
    let* _ := write_cell level (l - 1) in
    let* l := read_cell level in
    let* name := get_name (fid func) in
    let* _ := print (str_mul delimiter l +:+ " <-- " +:+ name
                       +:+ py_str (VTuple args) +:+ " == " +:+ py_str result) in
    ret result.

Definition trace_new (wrapped : addr) : M (addr * addr) :=
  let* level := new_cell 0 in
  let* w := def_wrapper "trace.<locals>.trace_with_param" wrapped in
  ret (level, w).

Definition trace (delim : string) (func : pyfunc) : M pyfunc :=
  let* lw := trace_new (fid func) in
  ret (Func (snd lw) (trace_wrapper delim (fst lw) func)).

(** ** The decorated functions *)

Fixpoint kw_find (name : string) (kw : kwargs) : option value :=
  match kw with
  | [] => None
  | (k, v) :: kw' => if String.eqb k name then Some v else kw_find name kw'
  end.

Fixpoint kw_remove (name : string) (kw : kwargs) : kwargs :=
  match kw with
  | [] => []
  | (k, v) :: kw' =>
      if String.eqb k name then kw_remove name kw' else (k, v) :: kw_remove name kw'
  end.

(** Binding of a call's arguments to the parameters of a plain [def]:
    positional arguments first, the remaining parameters by keyword;
    [None] stands for the interpreter's [TypeError]. *)
Fixpoint bind_params (names : list string) (args : list value) (kw : kwargs)
  : option (list value) :=
  match names, args with
  | [], [] => match kw with [] => Some [] | _ :: _ => None end
  | [], _ :: _ => None
  | n :: names', a :: args' =>
      match kw_find n kw with
      | Some _ => None
      | None => option_map (cons a) (bind_params names' args' kw)
      end
  | n :: names', [] =>
      match kw_find n kw with
      | Some v => option_map (cons v) (bind_params names' [] (kw_remove n kw))
      | None => None
      end
  end.

(** [def foo(a, b): return a + b] *)
Definition foo_body : callable :=
  fun args kw =>
    match bind_params ["a"; "b"] args kw with
    | Some [a; b] => lift (py_add a b)
    | _ => raise TypeError
    end.

(** [def bar(a, b): return a * b] *)
Definition bar_body : callable :=
  fun args kw =>
    match bind_params ["a"; "b"] args kw with
    | Some [a; b] => lift (py_mul a b)
    | _ => raise TypeError
    end.

(** [def fib(n): return 1 if n <= 1 else fib(n-1) + fib(n-2)], where the
    name [fib] is looked up in the module at each call. *)
Definition fib_body (fib : callable) : callable :=
  fun args kw =>
    match bind_params ["n"] args kw with
    | Some [n] =>
        let* small := lift (py_le_int n 1) in
        if (small : bool) then ret (VInt 1)
        else
          let* n1 := lift (py_sub n (VInt 1)) in
          let* x := fib [n1] [] in
          let* n2 := lift (py_sub n (VInt 2)) in
          let* y := fib [n2] [] in
          lift (py_add x y)
    | _ => raise TypeError
    end.

(** [memo(countcalls(n_ary(f)))] for a function [f] defined as [name]. *)
Definition memo_count_n_ary (name : string) (body : callable) : M pyfunc :=
  let* a := def_function name name None in
  let* f1 := n_ary (Func a body) in
  let* f2 := countcalls f1 in
  memo f2.

(** [countcalls(memo(n_ary(f)))] for a function [f] defined as [name]. *)
Definition count_memo_n_ary (name : string) (body : callable) : M pyfunc :=
  let* a := def_function name name None in
  let* f1 := n_ary (Func a body) in
  let* f2 := memo f1 in
  countcalls f2.

(** [foo = memo(countcalls(n_ary(foo)))] *)
Definition foo : M pyfunc := memo_count_n_ary "foo" foo_body.

(** [bar = countcalls(memo(n_ary(bar)))] *)
Definition bar : M pyfunc := count_memo_n_ary "bar" bar_body.

(** The objects of the [fib] stack. *)
Record fib_env : Type := FibEnv {
  fib_raw : addr;
  fib_cache : addr;
  fib_memo : addr;
  fib_level : addr;
  fib_trace : addr;
  fib_count : addr
}.

(** What the module-level name [fib] does when called: the [countcalls]
    wrapper around the [trace] wrapper around the [memo] wrapper around
    the body, whose own calls to [fib] come back here.  [depth] bounds
    the nesting of calls; beyond it the call ends with [RecursionError]. *)
Fixpoint fib_global (delim : string) (e : fib_env) (depth : nat) : callable :=
  match depth with
  | O => fun _ _ => raise RecursionError
  | S d =>
      countcalls_wrapper (fib_count e)
        (Func (fib_trace e)
           (trace_wrapper delim (fib_level e)
              (Func (fib_memo e)
                 (memo_wrapper (fib_cache e)
                    (Func (fib_raw e) (fib_body (fib_global delim e d)))))))
  end.

(** [fib = countcalls(trace(delim)(memo(fib)))] *)
Definition fib_new : M fib_env :=
  let* raw := def_function "fib" "fib" (Some "Some doc") in
  let* cm := memo_new raw in
  let* lt := trace_new (snd cm) in
  let* c := countcalls_new (snd lt) in
  ret {| fib_raw := raw; fib_cache := fst cm; fib_memo := snd cm;
         fib_level := fst lt; fib_trace := snd lt; fib_count := c |}.

Definition fib (delim : string) (depth : nat) : M pyfunc :=
  let* e := fib_new in
  ret (Func (fib_count e) (fib_global delim e depth)).

(** ** Running calls *)

(** [try: m  except: ...], keeping how [m] ended. *)
Definition attempt {A} (m : M A) : M (outcome A) :=
  fun st => match m st with Reply o st1 out1 => Reply (Ret o) st1 out1 end.

(** Call [f] once per entry of [calls], going on after a call that
    raised. *)
Fixpoint call_all (f : callable) (calls : list (list value * kwargs))
  : M (list (outcome value)) :=
  match calls with
  | [] => ret []
  | (args, kw) :: rest =>
      let* o := attempt (f args kw) in
      let* os := call_all f rest in
      ret (o :: os)
  end.

Definition ints (l : list Z) : list value * kwargs := (map VInt l, []).

(** ** Observations on the store *)

(** [f.calls] *)
Definition calls_of (a : addr) (st : store) : option attr := attr_of a "calls" st.

(** [f.__wrapped__] *)
Definition wrapped_of (a : addr) (st : store) : option attr :=
  attr_of a "__wrapped__" st.

(** [f.__name__] and [f.__doc__] *)
Definition name_of (a : addr) (st : store) : option string :=
  fn_name <$> functions st !! a.

Definition doc_of (a : addr) (st : store) : option (option string) :=
  fn_doc <$> functions st !! a.

Definition cell_of (l : addr) (st : store) : Z := default 0 (cells st !! l).

Definition cache_of (c : addr) (st : store) : list (key * value) :=
  default [] (dicts st !! c).

(** The canonical key of a call. *)
Definition key_of (args : list value) (kw : kwargs) : key :=
  (args, sorted_items kw).

(** ** Conditions on targets *)

(** The target never assigns the [calls] attribute of function [w]. *)
Definition keeps_calls (w : addr) (T : callable) : Prop :=
  forall args kw st, calls_of w (final (T args kw st)) = calls_of w st.

(** The target leaves every function object as it found it. *)
Definition keeps_functions (T : callable) : Prop :=
  forall args kw st, functions (final (T args kw st)) = functions st.

(** The target never touches the dictionary [c]. *)
Definition keeps_dict (c : addr) (T : callable) : Prop :=
  forall args kw st, dicts (final (T args kw st)) !! c = dicts st !! c.

(** The target counts its own invocations in cell [n]: each run adds one. *)
Definition counts_in (n : addr) (T : callable) : Prop :=
  forall args kw st, cell_of n (final (T args kw st)) = cell_of n st + 1.

(** A target instrumented to count its invocations in cell [n]. *)
Definition instrumented (n : addr) (T : callable) : callable :=
  fun args kw =>
    let* k := read_cell n in
    let* _ := write_cell n (k + 1) in
    T args kw.

(** ** A combinator on top of [countcalls] *)

(** With [mk] applied on top of [countcalls(T)], the outer wrapper's
    [calls] is a copy taken when [mk] was applied: it reads 0 then and
    after any sequence of calls, while the [countcalls] wrapper it points
    to holds the number of times [T] ran (cell [n] counts those runs). *)
Definition stale_copy_under (mk : pyfunc -> M pyfunc) (T : pyfunc) (n : addr)
    (st0 : store) (calls : list (list value * kwargs)) : Prop :=
  exists inner outer st1,
    res (countcalls T st0) = Ret inner
    /\ mk inner (final (countcalls T st0)) = Reply (Ret outer) st1 []
    /\ wrapped_of (fid outer) st1 = Some (AFun (fid inner))
    /\ calls_of (fid outer) st1 = Some (AVal (VInt 0))
    /\ let st := final (call_all (fcall outer) calls st1) in
       calls_of (fid outer) st = Some (AVal (VInt 0))
       /\ calls_of (fid inner) st = Some (AVal (VInt (cell_of n st - cell_of n st1))).

(** What one call through an outer wrapper has to keep. *)
Definition keeps_copy (W : callable) (n inner outer : addr) : Prop :=
  forall args kw st k x,
    calls_of outer st = Some x ->
    calls_of inner st = Some (AVal (VInt k)) ->
    exists j,
      calls_of outer (final (W args kw st)) = Some x
      /\ calls_of inner (final (W args kw st)) = Some (AVal (VInt (k + j)))
      /\ cell_of n (final (W args kw st)) = cell_of n st + j.

(** ** Further definitions used in statements *)

(** Apply a decorator stack in the empty store and make the calls;
    gives the decorated function's identity and what the calls did. *)
Definition decorate_and_call (mk : M pyfunc) (calls : list (list value * kwargs))
  : option (addr * reply (list (outcome value))) :=
  match mk empty_store with
  | Reply (Ret f) st _ => Some (fid f, call_all (fcall f) calls st)
  | Reply (Raise _) _ _ => None
  end.

(** The calls [(4, 3)], [(4, 3)], [(4, 3, 2)]. *)
Definition three_calls : list (list value * kwargs) :=
  [ints [4; 3]; ints [4; 3]; ints [4; 3; 2]].

(** *** Stores reached by single statements *)

(** The store once [f.name = x] has run on function object [g]. *)
Definition assigned (a : addr) (g : function) (name : string) (x : attr) (st : store) : store :=
  set_functions (<[a := set_dict (<[name := x]> (fn_dict g)) g]> (functions st)) st.

(** The store once function object [f] has been created at [a]. *)
Definition allocated (a : addr) (f : function) (st : store) : store :=
  set_functions (<[a := f]> (functions st)) (set_next (S a) st).

(** What [functools.wraps] makes of a freshly defined wrapper around [g]. *)
Definition wrapper_object (g : function) (wrapped : addr) : function :=
  {| fn_name := fn_name g; fn_qualname := fn_qualname g; fn_doc := fn_doc g;
     fn_dict := <["__wrapped__" := AFun wrapped]> (fn_dict g ∪ ∅) |}.

(** The store once [cache = {}] has run. *)
Definition with_dict (c : addr) (st : store) : store :=
  set_next (S c) (set_dicts (<[c := []]> (dicts st)) st).

(** The store once [cache[k] = v] has run. *)
Definition remember (c : addr) (k : key) (v : value) (st : store) : store :=
  set_dicts (<[c := cache_store k v (cache_of c st)]> (dicts st)) st.

(** The store once the tracer has incremented its depth. *)
Definition entered (l : addr) (st : store) : store :=
  set_cells (<[l := cell_of l st + 1]> (cells st)) st.

(** The store once the tracer has decremented its depth. *)
Definition left (l : addr) (st : store) : store :=
  set_cells (<[l := cell_of l st - 1]> (cells st)) st.

(** *** Trace lines *)

Definition entry_line (delim : string) (depth : Z) (name : string) (args : list value)
  : string :=
  str_mul delim depth +:+ " --> " +:+ name +:+ py_str (VTuple args).

Definition exit_line (delim : string) (depth : Z) (name : string) (args : list value)
    (result : value) : string :=
  str_mul delim depth +:+ " <-- " +:+ name +:+ py_str (VTuple args) +:+ " == "
  +:+ py_str result.

(** *** The fold of the docstring *)

(** The fold the docstring of [n_ary] describes: [f(x, y, z) = f(x, f(y, z))]
    and [f(x) = x]. *)
Fixpoint right_fold (func : pyfunc) (args : list value) : M value :=
  match args with
  | [] => ret VNone
  | [a] => ret a
  | a :: rest =>
      let* acc := right_fold func rest in
      fcall func [a; acc] []
  end.

(** *** Sample callers *)

(** [def foo] alone in the store, at address 0. *)
Definition foo_store : store := final (def_function "foo" "foo" None empty_store).

Definition foo_raw : pyfunc := Func 0%nat foo_body.

Definition foo_object : function :=
  {| fn_name := "foo"; fn_qualname := "foo"; fn_doc := None; fn_dict := ∅ |}.

(** [foo] instrumented to count its runs in cell 7. *)
Definition foo_counting : pyfunc := Func 0%nat (instrumented 7%nat foo_body).

(** The addresses the [fib] stack gets in the empty store. *)
Definition fib_env0 : fib_env :=
  {| fib_raw := 0%nat; fib_cache := 1%nat; fib_memo := 2%nat; fib_level := 3%nat;
     fib_trace := 4%nat; fib_count := 5%nat |}.

(** The store after the module has defined [fib] and [fib(2)] has run. *)
Definition fib_store2 : store :=
  final (fib_global "#" fib_env0 4 [VInt 2] [] (final (fib_new empty_store))).

Definition fib_count_object : function :=
  {| fn_name := "fib"; fn_qualname := "fib"; fn_doc := Some "Some doc";
     fn_dict := <["calls" := AVal (VInt 3)]> (<["__wrapped__" := AFun 4%nat]> ∅) |}.

Definition fib_memo_object : function :=
  {| fn_name := "fib"; fn_qualname := "fib"; fn_doc := Some "Some doc";
     fn_dict := <["__wrapped__" := AFun 0%nat]> ∅ |}.

(** A caller's function that calls itself through its tracer and swallows
    the failure of the nested call:
    [def g(n):  if n == 0: raise Exception("boom")]
    [           try: g(0)  except Exception: pass]
    [           return 1] *)
Definition swallow_body (g : callable) : callable :=
  fun args kw =>
    match bind_params ["n"] args kw with
    | Some [n] =>
        if py_eq n (VInt 0) then raise (Exception "boom")
        else
          let* _ := attempt (g [VInt 0] []) in
          ret (VInt 1)
    | _ => raise TypeError
    end.

(** What the name [g] does once [g = trace(delim)(g)] has run. *)
Fixpoint traced_swallow (delim : string) (level raw : addr) (depth : nat) : callable :=
  match depth with
  | O => fun _ _ => raise RecursionError
  | S d =>
      trace_wrapper delim level
        (Func raw (swallow_body (traced_swallow delim level raw d)))
  end.

(** The store after [def g] and [trace("#")(g)]: [g] at 0, the depth cell at 1. *)
Definition swallow_store : store :=
  final ((let* raw := def_function "g" "g" None in trace_new raw) empty_store).

Definition swallow_target : pyfunc :=
  Func 0%nat (swallow_body (traced_swallow "#" 1%nat 0%nat 1)).

(** [countcalls(countcalls(foo))] called three times. *)
Definition counted_twice : reply (list (outcome value)) :=
  let inner := Func 1%nat (countcalls_wrapper 1%nat foo_counting) in
  let outer := Func 2%nat (countcalls_wrapper 2%nat inner) in
  call_all (fcall outer) [ints [4; 3]; ints [4; 2]; ints [4; 3]]
    (final (countcalls inner (final (countcalls foo_counting foo_store)))).

(** *** Statements that fail on the code *)

(** "A call whose argument is already in the cache prints nothing." *)
Definition cache_hit_silent (delim : string) (e : fib_env) (depth : nat)
    (st : store) (n : value) : Prop :=
  cache_mem (key_of [n] []) (cache_of (fib_cache e) st) = true ->
  output (fib_global delim e depth [n] [] st) = [].

(** "A traced call that returns prints its two lines with the indentation
    of the depth it started at, and leaves the depth as it found it." *)
Definition depth_symmetric (delim : string) (l : addr) (T : pyfunc)
    (args : list value) (kw : kwargs) (st : store) : Prop :=
  let r := trace_wrapper delim l T args kw st in
  forall v, res r = Ret v ->
    (exists name inner,
        output r = entry_line delim (cell_of l st) name args
                   :: inner ++ [exit_line delim (cell_of l st) name args v])
    /\ cell_of l (final r) = cell_of l st.

(** ** Definitions for further properties *)

(** The wrapper [mk] makes of [func] bears [func]'s name and docstring and
    points to it with [__wrapped__]. *)
Definition forwards_metadata (mk : pyfunc -> M pyfunc) (func : pyfunc) (st : store)
    (g : function) : Prop :=
  exists w,
    res (mk func st) = Ret w
    /\ name_of (fid w) (final (mk func st)) = Some (fn_name g)
    /\ doc_of (fid w) (final (mk func st)) = Some (fn_doc g)
    /\ wrapped_of (fid w) (final (mk func st)) = Some (AFun (fid func))
    /\ forall name x,
         name <> "__wrapped__" -> name <> "calls" ->
         fn_dict g !! name = Some x ->
         attr_of (fid w) name (final (mk func st)) = Some x.

(** [a1 + (a2 + (... + an))] *)
Definition sum_Z (l : list Z) : Z := fold_right Z.add 0 l.

(** [a1 * (a2 * (... * an))] *)
Definition product_Z (l : list Z) : Z := fold_right Z.mul 1 l.

Definition bar_raw : pyfunc := Func 0%nat bar_body.

(** Items in strictly increasing order of their names. *)
Definition name_lt (x y : string * value) : Prop := String.ltb (fst x) (fst y) = true.

(** The numbers [fib] is meant to compute: 1, 1, 2, 3, 5, ... *)
Fixpoint fib_spec (n : nat) : Z :=
  match n with
  | O => 1
  | S m =>
      match m with
      | O => 1
      | S k => fib_spec m + fib_spec k
      end
  end.

(** ... with 1 for every argument below 2. *)
Definition fib_of (n : Z) : Z := fib_spec (Z.to_nat n).

(** A store in which the [fib] stack can run: the counter holds an
    integer, the memoised function object exists, and what the cache holds
    for an integer argument is the right number. *)
Definition fib_ready (e : fib_env) (st : store) : Prop :=
  (exists g k, functions st !! fib_count e = Some g
               /\ fn_dict g !! "calls" = Some (AVal (VInt k)))
  /\ is_Some (functions st !! fib_memo e)
  /\ forall n v,
       cache_lookup (key_of [VInt n] []) (cache_of (fib_cache e) st) = Some v ->
       v = VInt (fib_of n).

(** The store after the bookkeeping that precedes the memoised call:
    [calls] incremented to [k + 1] and the depth incremented. *)
Definition fib_entered (e : fib_env) (g : function) (k : Z) (st : store) : store :=
  entered (fib_level e) (assigned (fib_count e) g "calls" (AVal (VInt (k + 1))) st).

(** No integer argument is cached. *)
Definition fib_cache_empty (e : fib_env) (st : store) : Prop :=
  forall j, cache_lookup (key_of [VInt j] []) (cache_of (fib_cache e) st) = None.

(** The integer arguments cached are exactly [0 .. n]. *)
Definition fib_cache_filled (e : fib_env) (n : Z) (st : store) : Prop :=
  forall j, is_Some (cache_lookup (key_of [VInt j] []) (cache_of (fib_cache e) st))
            <-> 0 <= j <= n.

(** A store in which the stack can run and whose counter reads [k]. *)
Definition fib_counted (e : fib_env) (st : store) (k : Z) : Prop :=
  fib_ready e st /\ calls_of (fib_count e) st = Some (AVal (VInt k)).

(** * Properties *)

(** ** Running computations *)

Lemma reply_eta {A} (r : reply A) : Reply (res r) (final r) (output r) = r.
Proof. destruct r; reflexivity. Qed.

(** A step that returns without printing hands over to the rest. *)
Lemma bind_quiet {A B} (m : M A) (f : A -> M B) st a st1 :
  m st = Reply (Ret a) st1 [] -> bind m f st = f a st1.
Proof. intros H. unfold bind. rewrite H. destruct (f a st1); reflexivity. Qed.

Lemma bind_ret {A B} (m : M A) (f : A -> M B) st a st1 out :
  m st = Reply (Ret a) st1 out ->
  bind m f st = Reply (res (f a st1)) (final (f a st1)) (out ++ output (f a st1)).
Proof. intros H. unfold bind. rewrite H. destruct (f a st1); reflexivity. Qed.

Lemma bind_raise {A B} (m : M A) (f : A -> M B) st e st1 out :
  m st = Reply (Raise e) st1 out -> bind m f st = Reply (Raise e) st1 out.
Proof. intros H. unfold bind. rewrite H. reflexivity. Qed.

Lemma getattr_run a name st x :
  attr_of a name st = Some x -> getattr a name st = Reply (Ret x) st [].
Proof. intros Hx. unfold getattr. rewrite Hx. reflexivity. Qed.

Lemma setattr_run a name x st g :
  functions st !! a = Some g ->
  setattr a name x st = Reply (Ret tt) (assigned a g name x st) [].
Proof. intros Hg. unfold setattr. rewrite Hg. reflexivity. Qed.

Lemma attr_of_inv a name st x :
  attr_of a name st = Some x ->
  exists g, functions st !! a = Some g /\ fn_dict g !! name = Some x.
Proof.
  unfold attr_of. destruct (functions st !! a) as [g|]; [|discriminate]. eauto.
Qed.

Lemma attr_of_assigned a g name x st : attr_of a name (assigned a g name x st) = Some x.
Proof.
  unfold attr_of, assigned. cbn [functions set_functions].
  rewrite lookup_insert_eq. cbn [fn_dict set_dict]. apply lookup_insert_eq.
Qed.

Lemma countcalls_wrapper_run w T args kw st g k :
  functions st !! w = Some g ->
  fn_dict g !! "calls" = Some (AVal (VInt k)) ->
  countcalls_wrapper w T args kw st
  = fcall T args kw (assigned w g "calls" (AVal (VInt (k + 1))) st).
Proof.
  intros Hg Hk. unfold countcalls_wrapper.
  erewrite bind_quiet by (apply getattr_run; unfold attr_of; rewrite Hg; exact Hk).
  erewrite bind_quiet by reflexivity.
  rewrite (bind_quiet _ _ _ _ _ (setattr_run _ _ _ _ _ Hg)).
  reflexivity.
Qed.

Lemma def_wrapper_ok owner wrapped st :
  is_Some (functions st !! wrapped) ->
  exists f, def_wrapper owner wrapped st
            = Reply (Ret (next st))
                (set_functions (<[next st := f]> (functions st)) (set_next (S (next st)) st)) [].
Proof.
  intros [g Hg]. unfold def_wrapper.
  erewrite bind_quiet by reflexivity.
  unfold update_wrapper, bind. cbn [functions set_functions set_next].
  rewrite lookup_insert_eq.
  destruct (decide (next st = wrapped)) as [->|Hne].
  - rewrite lookup_insert_eq. cbn. rewrite insert_insert_eq. eexists. reflexivity.
  - rewrite lookup_insert_ne by done. rewrite Hg. cbn. rewrite insert_insert_eq. eexists. reflexivity.
Qed.

Lemma countcalls_new_ok wrapped st :
  is_Some (functions st !! wrapped) ->
  res (countcalls_new wrapped st) = Ret (next st)
  /\ calls_of (next st) (final (countcalls_new wrapped st)) = Some (AVal (VInt 0)).
Proof.
  intros Hw. destruct (def_wrapper_ok "countcalls" wrapped st Hw) as [f Hf].
  unfold countcalls_new. rewrite (bind_quiet _ _ _ _ _ Hf).
  erewrite bind_quiet.
  2:{ apply setattr_run. cbn [functions set_functions]. apply lookup_insert_eq. }
  cbn [ret res final]. split; [reflexivity|]. apply attr_of_assigned.
Qed.

Lemma call_all_cons_final f args kw rest st :
  final (call_all f ((args, kw) :: rest) st) = final (call_all f rest (final (f args kw st))).
Proof.
  cbn [call_all]. unfold bind at 1, attempt.
  destruct (f args kw st) as [o s out]. cbn [final]. unfold bind.
  destruct (call_all f rest s) as [os s' out']. destruct os; reflexivity.
Qed.

Lemma call_all_counts w T calls :
  keeps_calls w (fcall T) ->
  forall st k, calls_of w st = Some (AVal (VInt k)) ->
  calls_of w (final (call_all (countcalls_wrapper w T) calls st))
  = Some (AVal (VInt (k + Z.of_nat (length calls)))).
Proof.
  intros Hkeep. induction calls as [|[args kw] rest IH]; intros st k Hc.
  - cbn. rewrite Z.add_0_r. exact Hc.
  - destruct (attr_of_inv _ _ _ _ Hc) as (g & Hg & Hk).
    rewrite call_all_cons_final, (countcalls_wrapper_run _ _ _ _ _ _ _ Hg Hk).
    replace (k + Z.of_nat (length ((args, kw) :: rest))) with (k + 1 + Z.of_nat (length rest))
      by (cbn [length]; lia).
    apply IH. rewrite Hkeep. apply attr_of_assigned.
Qed.

(** Claim C7.  A fresh [countcalls(T)] wrapper that has been called [k]
    times reads [calls = k], whatever the arguments were and whether the
    calls returned or raised: the increment comes before the target runs.
    [T] is any target that does not itself assign the wrapper's [calls]. *)
Theorem countcalls_counts_calls_made (T : pyfunc) (st0 : store)
    (calls : list (list value * kwargs)) :
  is_Some (functions st0 !! fid T) ->
  keeps_calls (next st0) (fcall T) ->
  exists w,
    res (countcalls T st0) = Ret w /\
    calls_of (fid w) (final (call_all (fcall w) calls (final (countcalls T st0))))
    = Some (AVal (VInt (Z.of_nat (length calls)))).
Proof.
  intros HT Hkeep. destruct (countcalls_new_ok (fid T) st0 HT) as [Hres Hzero].
  unfold countcalls, bind.
  destruct (countcalls_new (fid T) st0) as [o s out]. cbn in Hres, Hzero. subst o.
  cbn. eexists. split; [reflexivity|]. cbn.
  apply (call_all_counts (next st0) T calls Hkeep s 0 Hzero).
Qed.

(** ** Equality of keys *)

Lemma value_nested_ind (P : value -> Prop) :
  P VNone ->
  (forall b, P (VBool b)) ->
  (forall z, P (VInt z)) ->
  (forall l, Forall P l -> P (VTuple l)) ->
  (forall l, Forall P l -> P (VList l)) ->
  forall v, P v.
Proof.
  intros HNone HBool HInt HTuple HList.
  fix IH 1. intros [| b | z | l | l].
  - exact HNone.
  - apply HBool.
  - apply HInt.
  - apply HTuple. induction l as [|x l IHl]; [apply Forall_nil_2 | apply Forall_cons_2; [apply IH | exact IHl]].
  - apply HList. induction l as [|x l IHl]; [apply Forall_nil_2 | apply Forall_cons_2; [apply IH | exact IHl]].
Qed.

Lemma py_eq_tuple l r : py_eq (VTuple l) (VTuple r) = py_eq_list l r.
Proof. destruct l, r; reflexivity. Qed.

Lemma py_eq_vlist l r : py_eq (VList l) (VList r) = py_eq_list l r.
Proof. destruct l, r; reflexivity. Qed.

Lemma py_eq_list_refl l : Forall (fun v => py_eq v v = true) l -> py_eq_list l l = true.
Proof. induction 1 as [|x l Hx _ IH]; simpl; [reflexivity|]. rewrite Hx, IH. reflexivity. Qed.

Lemma py_eq_refl v : py_eq v v = true.
Proof.
  induction v as [| b | z | l IH | l IH] using value_nested_ind.
  - reflexivity.
  - destruct b; reflexivity.
  - simpl. apply Z.eqb_refl.
  - rewrite py_eq_tuple. apply py_eq_list_refl, IH.
  - rewrite py_eq_vlist. apply py_eq_list_refl, IH.
Qed.

Lemma py_eq_list_sym l :
  Forall (fun v => forall w, py_eq v w = py_eq w v) l ->
  forall r, py_eq_list l r = py_eq_list r l.
Proof.
  induction 1 as [|x l Hx _ IH]; intros [|y r]; simpl; try reflexivity.
  rewrite Hx, IH. reflexivity.
Qed.

Lemma py_eq_sym v : forall w, py_eq v w = py_eq w v.
Proof.
  induction v as [| b | z | l IH | l IH] using value_nested_ind; intros w.
  - destruct w; reflexivity.
  - destruct w as [| c | z | |]; try reflexivity.
    + destruct b, c; reflexivity.
    + simpl. apply Z.eqb_sym.
  - destruct w as [| c | z' | |]; try reflexivity; simpl; apply Z.eqb_sym.
  - destruct w as [| | | r | r]; try reflexivity.
    rewrite !py_eq_tuple. apply py_eq_list_sym, IH.
  - destruct w as [| | | r | r]; try reflexivity.
    rewrite !py_eq_vlist. apply py_eq_list_sym, IH.
Qed.

Lemma py_eq_list_trans l :
  Forall (fun v => forall w u, py_eq v w = true -> py_eq w u = true -> py_eq v u = true) l ->
  forall r s, py_eq_list l r = true -> py_eq_list r s = true -> py_eq_list l s = true.
Proof.
  induction 1 as [|x l Hx _ IH]; intros [|y r] [|z s]; simpl; try congruence.
  intros [H1 H2]%andb_prop [H3 H4]%andb_prop.
  rewrite (Hx _ _ H1 H3), (IH _ _ H2 H4). reflexivity.
Qed.

Lemma py_eq_trans v : forall w u, py_eq v w = true -> py_eq w u = true -> py_eq v u = true.
Proof.
  induction v as [| b | z | l IH | l IH] using value_nested_ind; intros w u.
  - destruct w; simpl; try discriminate. destruct u; simpl; try discriminate. reflexivity.
  - destruct w as [| c | z | |]; simpl; try discriminate;
      destruct u as [| d | z' | |]; simpl; try discriminate;
      rewrite ?Z.eqb_eq, ?Bool.eqb_true_iff; intros; subst; try reflexivity;
      destruct b; try destruct c; try destruct d; simpl in *; congruence.
  - destruct w as [| c | z' | |]; simpl; try discriminate;
      destruct u as [| d | z'' | |]; simpl; try discriminate;
      rewrite ?Z.eqb_eq, ?Bool.eqb_true_iff; intros; subst; try reflexivity;
      try destruct c; try destruct d; simpl in *; congruence.
  - destruct w as [| | | r | r]; try (simpl; discriminate).
    destruct u as [| | | s | s]; try (simpl; discriminate).
    rewrite !py_eq_tuple. apply py_eq_list_trans, IH.
  - destruct w as [| | | r | r]; try (simpl; discriminate).
    destruct u as [| | | s | s]; try (simpl; discriminate).
    rewrite !py_eq_vlist. apply py_eq_list_trans, IH.
Qed.

Lemma items_eq_refl l : items_eq l l = true.
Proof. induction l as [|[k v] l IH]; simpl; [reflexivity|].
  rewrite String.eqb_refl, py_eq_refl, IH. reflexivity. Qed.

Lemma items_eq_sym l : forall r, items_eq l r = items_eq r l.
Proof. induction l as [|[k v] l IH]; intros [|[k' v'] r]; simpl; try reflexivity.
  rewrite String.eqb_sym, py_eq_sym, IH. reflexivity. Qed.

Lemma items_eq_trans l : forall r s,
  items_eq l r = true -> items_eq r s = true -> items_eq l s = true.
Proof.
  induction l as [|[k v] l IH]; intros [|[k' v'] r] [|[k'' v''] s]; simpl; try congruence.
  intros [[H1 H2]%andb_prop H3]%andb_prop [[H4 H5]%andb_prop H6]%andb_prop.
  apply String.eqb_eq in H1, H4. subst.
  rewrite String.eqb_refl, (py_eq_trans _ _ _ H2 H5), (IH _ _ H3 H6). reflexivity.
Qed.

Lemma py_eq_list_refl' l : py_eq_list l l = true.
Proof. induction l; simpl; [reflexivity|]. rewrite py_eq_refl. assumption. Qed.

Lemma py_eq_list_sym' l : forall r, py_eq_list l r = py_eq_list r l.
Proof. apply py_eq_list_sym. apply Forall_forall. intros v _. apply py_eq_sym. Qed.

Lemma py_eq_list_trans' l r s :
  py_eq_list l r = true -> py_eq_list r s = true -> py_eq_list l s = true.
Proof. apply py_eq_list_trans. apply Forall_forall. intros v _. apply py_eq_trans. Qed.

Lemma key_eq_refl k : key_eq k k = true.
Proof. unfold key_eq. rewrite py_eq_list_refl', items_eq_refl. reflexivity. Qed.

Lemma key_eq_sym k k' : key_eq k k' = key_eq k' k.
Proof. unfold key_eq. rewrite py_eq_list_sym', items_eq_sym. reflexivity. Qed.

Lemma key_eq_trans k1 k2 k3 :
  key_eq k1 k2 = true -> key_eq k2 k3 = true -> key_eq k1 k3 = true.
Proof.
  unfold key_eq. intros [H1 H2]%andb_prop [H3 H4]%andb_prop.
  rewrite (py_eq_list_trans' _ _ _ H1 H3), (items_eq_trans _ _ _ H2 H4). reflexivity.
Qed.

(** Equal keys are equal to the same keys. *)
Lemma key_eq_congr k k' k0 : key_eq k k' = true -> key_eq k0 k = key_eq k0 k'.
Proof.
  intros H. destruct (key_eq k0 k) eqn:E1, (key_eq k0 k') eqn:E2; try reflexivity.
  - rewrite (key_eq_trans _ _ _ E1 H) in E2. discriminate.
  - rewrite key_eq_sym in H. rewrite (key_eq_trans _ _ _ E2 H) in E1. discriminate.
Qed.

Lemma hashable_list_eq l :
  Forall (fun v => forall w, py_eq v w = true -> hashable v = hashable w) l ->
  forall r, py_eq_list l r = true -> forallb hashable l = forallb hashable r.
Proof.
  induction 1 as [|x l Hx _ IH]; intros [|y r]; simpl; try congruence.
  intros [H1 H2]%andb_prop. rewrite (Hx _ H1), (IH _ H2). reflexivity.
Qed.

Lemma hashable_py_eq v : forall w, py_eq v w = true -> hashable v = hashable w.
Proof.
  induction v as [| b | z | l IH | l IH] using value_nested_ind; intros w;
    destruct w as [| c | z' | r | r]; simpl; try discriminate; try reflexivity.
  change (py_eq_list l r = true -> forallb hashable l = forallb hashable r).
  apply hashable_list_eq, IH.
Qed.

Lemma hashable_items_eq l : forall r, items_eq l r = true ->
  forallb (fun kv => hashable (snd kv)) l = forallb (fun kv => hashable (snd kv)) r.
Proof.
  induction l as [|[k v] l IH]; intros [|[k' v'] r]; simpl; try congruence.
  intros [[_ H2]%andb_prop H3]%andb_prop.
  rewrite (hashable_py_eq _ _ H2), (IH _ H3). reflexivity.
Qed.

Lemma hashable_key_eq k k' : key_eq k k' = true -> hashable_key k = hashable_key k'.
Proof.
  unfold key_eq, hashable_key. intros [H1 H2]%andb_prop.
  rewrite (hashable_list_eq _ (proj2 (Forall_forall _ _) (fun v _ => hashable_py_eq v)) _ H1).
  rewrite (hashable_items_eq _ _ H2). reflexivity.
Qed.

Lemma cache_lookup_eq k k' d : key_eq k k' = true -> cache_lookup k d = cache_lookup k' d.
Proof.
  intros H. induction d as [|[k0 v0] d IH]; simpl; [reflexivity|].
  rewrite (key_eq_congr _ _ k0 H), IH. reflexivity.
Qed.

Lemma cache_lookup_store k v d : cache_lookup k (cache_store k v d) = Some v.
Proof.
  induction d as [|[k0 v0] d IH]; simpl.
  - rewrite key_eq_refl. reflexivity.
  - destruct (key_eq k0 k) eqn:E; simpl; rewrite E; [reflexivity | exact IH].
Qed.

Lemma cache_lookup_store_ne k k' v d :
  key_eq k k' = false -> cache_lookup k' (cache_store k v d) = cache_lookup k' d.
Proof.
  intros Hne. induction d as [|[k0 v0] d IH]; simpl.
  - rewrite Hne. reflexivity.
  - destruct (key_eq k0 k) eqn:E; simpl.
    + assert (key_eq k0 k' = false) as ->; [|reflexivity].
      destruct (key_eq k0 k') eqn:E'; [|reflexivity].
      rewrite key_eq_sym in E. rewrite (key_eq_trans _ _ _ E E') in Hne. discriminate.
    + rewrite IH. reflexivity.
Qed.

(** ** [memo] *)

Lemma cache_of_remember c k v st : cache_of c (remember c k v st) = cache_store k v (cache_of c st).
Proof. unfold cache_of at 1, remember. simpl. rewrite lookup_insert_eq. reflexivity. Qed.

Lemma cell_of_remember n c k v st : cell_of n (remember c k v st) = cell_of n st.
Proof. reflexivity. Qed.

Lemma read_dict_run c st : read_dict c st = Reply (Ret (cache_of c st)) st [].
Proof. reflexivity. Qed.

Lemma write_dict_remember c k v st :
  write_dict c (cache_store k v (cache_of c st)) st = Reply (Ret tt) (remember c k v st) [].
Proof. reflexivity. Qed.

Lemma memo_wrapper_hit c T args kw st v :
  hashable_key (key_of args kw) = true ->
  cache_lookup (key_of args kw) (cache_of c st) = Some v ->
  memo_wrapper c T args kw st = Reply (Ret v) st [].
Proof.
  intros Hh Hl. unfold memo_wrapper. fold (key_of args kw). rewrite Hh.
  rewrite (bind_quiet _ _ _ _ _ (read_dict_run c st)).
  unfold cache_mem. rewrite Hl.
  erewrite bind_quiet by reflexivity.
  rewrite (bind_quiet _ _ _ _ _ (read_dict_run c st)).
  rewrite Hl. reflexivity.
Qed.

Lemma memo_wrapper_miss c T args kw st :
  hashable_key (key_of args kw) = true ->
  cache_lookup (key_of args kw) (cache_of c st) = None ->
  memo_wrapper c T args kw st =
    let t := fcall T args kw st in
    match res t with
    | Ret r => Reply (Ret r) (remember c (key_of args kw) r (final t)) (output t)
    | Raise e => Reply (Raise e) (final t) (output t)
    end.
Proof.
  intros Hh Hl. unfold memo_wrapper. fold (key_of args kw). rewrite Hh.
  rewrite (bind_quiet _ _ _ _ _ (read_dict_run c st)).
  unfold cache_mem. rewrite Hl. cbv zeta.
  destruct (fcall T args kw st) as [o s out] eqn:Et. cbn [res final output].
  destruct o as [r|e].
  - erewrite bind_ret.
    2:{ erewrite bind_ret by exact Et.
        rewrite (bind_quiet _ _ _ _ _ (read_dict_run c s)).
        rewrite write_dict_remember. cbn [res final output]. rewrite app_nil_r. reflexivity. }
    rewrite (bind_quiet _ _ _ _ _ (read_dict_run c _)).
    rewrite cache_of_remember, cache_lookup_store. cbn [ret res final output].
    rewrite app_nil_r. reflexivity.
  - erewrite bind_raise; [reflexivity|].
    erewrite bind_raise by exact Et. reflexivity.
Qed.

Lemma memo_wrapper_unhashable c T args kw st :
  hashable_key (key_of args kw) = false ->
  memo_wrapper c T args kw st = Reply (Raise TypeError) st [].
Proof. intros Hh. unfold memo_wrapper. fold (key_of args kw). rewrite Hh. reflexivity. Qed.

Lemma keeps_dict_cache_of c T args kw st :
  keeps_dict c T -> cache_of c (final (T args kw st)) = cache_of c st.
Proof. intros H. unfold cache_of. rewrite H. reflexivity. Qed.

(** Claim C3.  Two calls of the [memo(T)] wrapper with equal arguments run
    [T] once and both return [T]'s result; the second changes nothing and
    prints nothing.  A call whose key differs from every cached key runs
    [T] again.  [T] counts its own runs in cell [n] and leaves the cache
    alone; the arguments are hashable, not yet cached, and [T] returns. *)
Theorem memo_single_evaluation (T : pyfunc) (c n : addr) (st : store)
    (args args' : list value) (kw kw' : kwargs) (v : value) :
  counts_in n (fcall T) ->
  keeps_dict c (fcall T) ->
  hashable_key (key_of args kw) = true ->
  key_eq (key_of args kw) (key_of args' kw') = true ->
  cache_lookup (key_of args kw) (cache_of c st) = None ->
  res (fcall T args kw st) = Ret v ->
  let first := memo_wrapper c T args kw st in
  let second := memo_wrapper c T args' kw' (final first) in
  res first = Ret v /\ output first = output (fcall T args kw st)
  /\ res second = Ret v /\ final second = final first /\ output second = []
  /\ cell_of n (final second) = cell_of n st + 1
  /\ forall args2 kw2,
       hashable_key (key_of args2 kw2) = true ->
       key_eq (key_of args kw) (key_of args2 kw2) = false ->
       cache_lookup (key_of args2 kw2) (cache_of c st) = None ->
       cell_of n (final (memo_wrapper c T args2 kw2 (final second))) = cell_of n st + 2.
Proof.
  intros Hcount Hkeep Hh Heq Hmiss Hret first second.
  assert (Hfirst : first = Reply (Ret v) (remember c (key_of args kw) v (final (fcall T args kw st)))
                     (output (fcall T args kw st))).
  { unfold first. rewrite (memo_wrapper_miss _ _ _ _ _ Hh Hmiss). cbv zeta. rewrite Hret. reflexivity. }
  assert (Hsecond : second = Reply (Ret v) (final first) []).
  { unfold second. apply memo_wrapper_hit.
    - rewrite <- (hashable_key_eq _ _ Heq). exact Hh.
    - rewrite <- (cache_lookup_eq _ _ _ Heq). rewrite Hfirst. cbn [final].
      rewrite cache_of_remember. apply cache_lookup_store. }
  rewrite Hsecond. cbn [res final output]. rewrite Hfirst. cbn [res final output].
  repeat split.
  - rewrite cell_of_remember. apply Hcount.
  - intros args2 kw2 Hh2 Hne Hmiss2.
    rewrite memo_wrapper_miss; [ | exact Hh2 | ].
    + cbv zeta.
      set (st1 := remember _ _ _ _).
      assert (cell_of n (final (fcall T args2 kw2 st1)) = cell_of n st + 2) as Hc.
      { rewrite Hcount. unfold st1. rewrite cell_of_remember, Hcount. lia. }
      destruct (res (fcall T args2 kw2 st1)); cbn [final]; [rewrite cell_of_remember|]; exact Hc.
    + rewrite cache_of_remember, (cache_lookup_store_ne _ _ _ _ Hne).
      rewrite (keeps_dict_cache_of _ _ _ _ _ Hkeep). exact Hmiss2.
Qed.

(** Claim C6.  When [T] raises on a cache miss, the [memo(T)] wrapper ends
    with the same error, leaves the store as [T] left it, stores nothing
    under the key, and the next call with the same arguments runs [T]
    again. *)
Theorem memo_error_not_cached (T : pyfunc) (c n : addr) (st : store)
    (args : list value) (kw : kwargs) (e : exn) :
  counts_in n (fcall T) ->
  keeps_dict c (fcall T) ->
  hashable_key (key_of args kw) = true ->
  cache_lookup (key_of args kw) (cache_of c st) = None ->
  res (fcall T args kw st) = Raise e ->
  let first := memo_wrapper c T args kw st in
  res first = Raise e
  /\ final first = final (fcall T args kw st)
  /\ output first = output (fcall T args kw st)
  /\ cache_lookup (key_of args kw) (cache_of c (final first)) = None
  /\ cell_of n (final first) = cell_of n st + 1
  /\ cell_of n (final (memo_wrapper c T args kw (final first))) = cell_of n st + 2.
Proof.
  intros Hcount Hkeep Hh Hmiss Hraise first.
  assert (Hfirst : first = Reply (Raise e) (final (fcall T args kw st)) (output (fcall T args kw st))).
  { unfold first. rewrite (memo_wrapper_miss _ _ _ _ _ Hh Hmiss). cbv zeta. rewrite Hraise. reflexivity. }
  rewrite Hfirst. cbn [res final output].
  assert (Hmiss' : cache_lookup (key_of args kw) (cache_of c (final (fcall T args kw st))) = None).
  { rewrite (keeps_dict_cache_of _ _ _ _ _ Hkeep). exact Hmiss. }
  repeat split; try assumption.
  - apply Hcount.
  - rewrite (memo_wrapper_miss _ _ _ _ _ Hh Hmiss'). cbv zeta.
    set (st1 := final (fcall T args kw st)).
    assert (cell_of n (final (fcall T args kw st1)) = cell_of n st + 2) as Hc.
    { rewrite Hcount. unfold st1. rewrite Hcount. lia. }
    destruct (res (fcall T args kw st1)); cbn [final]; [rewrite cell_of_remember|]; exact Hc.
Qed.

(** ** [trace] *)

Lemma cell_of_entered l st : cell_of l (entered l st) = cell_of l st + 1.
Proof. unfold cell_of at 1, entered. simpl. rewrite lookup_insert_eq. reflexivity. Qed.

Lemma cell_of_left l st : cell_of l (left l st) = cell_of l st - 1.
Proof. unfold cell_of at 1, left. simpl. rewrite lookup_insert_eq. reflexivity. Qed.

Lemma read_cell_run l st : read_cell l st = Reply (Ret (cell_of l st)) st [].
Proof. reflexivity. Qed.

Lemma get_name_run a st f :
  functions st !! a = Some f -> get_name a st = Reply (Ret (fn_name f)) st [].
Proof. intros Hf. unfold get_name. rewrite Hf. reflexivity. Qed.

Lemma trace_wrapper_run delim l T args kw st f :
  functions st !! fid T = Some f ->
  trace_wrapper delim l T args kw st =
    let t := fcall T args kw (entered l st) in
    let entry := entry_line delim (cell_of l st) (fn_name f) args in
    match res t with
    | Raise e => Reply (Raise e) (final t) (entry :: output t)
    | Ret r =>
        match functions (final t) !! fid T with
        | Some f' =>
            Reply (Ret r) (left l (final t))
              (entry :: output t ++
                 [exit_line delim (cell_of l (final t) - 1) (fn_name f') args r])
        | None => Reply (Raise AttributeError) (left l (final t)) (entry :: output t)
        end
    end.
Proof.
  intros Hf. unfold trace_wrapper.
  rewrite (bind_quiet _ _ _ _ _ (read_cell_run l st)).
  rewrite (bind_quiet _ _ _ _ _ (get_name_run _ _ _ Hf)).
  erewrite bind_ret by reflexivity.
  rewrite (bind_quiet _ _ _ _ _ (read_cell_run l st)).
  erewrite bind_quiet by (unfold write_cell; fold (entered l st); reflexivity).
  cbv zeta. fold (entry_line delim (cell_of l st) (fn_name f) args).
  destruct (fcall T args kw (entered l st)) as [o s out] eqn:Et. cbn [res final output].
  destruct o as [r|e].
  - erewrite bind_ret by exact Et.
    rewrite (bind_quiet _ _ _ _ _ (read_cell_run l s)).
    erewrite bind_quiet by (unfold write_cell; fold (left l s); reflexivity).
    rewrite (bind_quiet _ _ _ _ _ (read_cell_run l _)).
    change (functions (left l s)) with (functions s).
    destruct (functions s !! fid T) as [f'|] eqn:Hf'.
    + erewrite (bind_quiet (get_name (fid T))) by (apply get_name_run; exact Hf').
      erewrite bind_ret by reflexivity.
      cbn [ret res final output]. rewrite cell_of_left, app_nil_r. reflexivity.
    + erewrite (bind_raise (get_name (fid T))).
      2:{ unfold get_name. change (functions (left l s)) with (functions s).
          rewrite Hf'. reflexivity. }
      cbn [res final output]. rewrite app_nil_r. reflexivity.
  - erewrite bind_raise by exact Et. reflexivity.
Qed.

(** Claim C8.  When the target raises, the tracer has printed the entry
    line and incremented the depth before the target ran, the error
    reaches the caller as it is, and nothing is printed after what the
    target printed: there is no exit line. *)
Theorem trace_error_has_no_exit_line (delim : string) (l : addr) (T : pyfunc)
    (args : list value) (kw : kwargs) (st : store) (f : function) (e : exn) :
  functions st !! fid T = Some f ->
  res (fcall T args kw (entered l st)) = Raise e ->
  let t := fcall T args kw (entered l st) in
  let r := trace_wrapper delim l T args kw st in
  cell_of l (entered l st) = cell_of l st + 1
  /\ res r = Raise e
  /\ output r = entry_line delim (cell_of l st) (fn_name f) args :: output t
  /\ final r = final t.
Proof.
  intros Hf Hraise t r. unfold r. rewrite (trace_wrapper_run _ _ _ _ _ _ _ Hf).
  cbv zeta. rewrite Hraise. cbn [res final output].
  split; [apply cell_of_entered|]. repeat split.
Qed.

(** Claim C5, as amended.  A traced call whose target returns and leaves
    the depth cell at the value it had when the target was entered prints
    [delimiter * D --> name args] first and
    [delimiter * D <-- name args == result] last, [D] being the depth
    before the call, and the depth is [D] again afterwards. *)
Theorem trace_lines_symmetric (delim : string) (l : addr) (T : pyfunc)
    (args : list value) (kw : kwargs) (st : store) (f : function) (v : value) :
  functions st !! fid T = Some f ->
  res (fcall T args kw (entered l st)) = Ret v ->
  cell_of l (final (fcall T args kw (entered l st))) = cell_of l st + 1 ->
  fn_name <$> functions (final (fcall T args kw (entered l st))) !! fid T = Some (fn_name f) ->
  let t := fcall T args kw (entered l st) in
  let r := trace_wrapper delim l T args kw st in
  res r = Ret v
  /\ output r = [entry_line delim (cell_of l st) (fn_name f) args]
                ++ output t
                ++ [exit_line delim (cell_of l st) (fn_name f) args v]
  /\ cell_of l (final r) = cell_of l st.
Proof.
  intros Hf Hret Hbal Hname t r. unfold r. rewrite (trace_wrapper_run _ _ _ _ _ _ _ Hf).
  cbv zeta. rewrite Hret.
  destruct (functions (final (fcall T args kw (entered l st))) !! fid T) as [f'|] eqn:E;
    [|discriminate].
  injection Hname as Hname. cbn [res final output].
  rewrite cell_of_left, Hbal, Hname.
  replace (cell_of l st + 1 - 1) with (cell_of l st) by lia.
  repeat split.
Qed.

Lemma name_assigned w g name x st a :
  functions st !! w = Some g ->
  fn_name <$> functions (assigned w g name x st) !! a = fn_name <$> functions st !! a.
Proof.
  intros Hg. unfold assigned. cbn [functions set_functions].
  destruct (decide (w = a)) as [->|Hne].
  - rewrite lookup_insert_eq, Hg. reflexivity.
  - rewrite lookup_insert_ne by done. reflexivity.
Qed.

(** Claim C1, as amended.  In [countcalls(trace(d)(memo(fib)))] a call
    whose argument is already cached is still traced: it prints exactly its
    entry and exit line at the current depth, returns the stored value,
    counts as a call and leaves the cache as it was.  What the hit skips
    is the body of [fib]. *)
Theorem fib_cache_hit_is_traced (delim : string) (e : fib_env) (d : nat) (st : store)
    (n v : value) (k : Z) (fc fm : function) :
  functions st !! fib_count e = Some fc ->
  fn_dict fc !! "calls" = Some (AVal (VInt k)) ->
  functions st !! fib_memo e = Some fm ->
  hashable n = true ->
  cache_lookup (key_of [n] []) (cache_of (fib_cache e) st) = Some v ->
  let r := fib_global delim e (S d) [n] [] st in
  let depth := cell_of (fib_level e) st in
  res r = Ret v
  /\ output r = [entry_line delim depth (fn_name fm) [n];
                 exit_line delim depth (fn_name fm) [n] v]
  /\ dicts (final r) = dicts st
  /\ calls_of (fib_count e) (final r) = Some (AVal (VInt (k + 1)))
  /\ cell_of (fib_level e) (final r) = depth.
Proof.
  intros Hfc Hk Hfm Hh Hhit r depth. unfold r, depth. cbn [fib_global].
  rewrite (countcalls_wrapper_run _ _ _ _ _ _ _ Hfc Hk). cbn [fcall].
  set (st1 := assigned (fib_count e) fc "calls" (AVal (VInt (k + 1))) st).
  pose proof (name_assigned (fib_count e) fc "calls" (AVal (VInt (k + 1))) st (fib_memo e) Hfc)
    as Hn.
  fold st1 in Hn. rewrite Hfm in Hn.
  destruct (functions st1 !! fib_memo e) as [fm'|] eqn:Hfm'; [|discriminate].
  injection Hn as Hname.
  erewrite (trace_wrapper_run delim (fib_level e) _ [n] [] st1 fm') by exact Hfm'.
  cbn [fcall fid].
  rewrite (memo_wrapper_hit (fib_cache e) _ [n] [] (entered (fib_level e) st1) v).
  - cbv zeta. cbn [res final output].
    change (functions (entered (fib_level e) st1)) with (functions st1).
    rewrite Hfm'. cbn [res final output app].
    rewrite cell_of_entered, cell_of_left, cell_of_entered, Hname.
    change (cell_of (fib_level e) st1) with (cell_of (fib_level e) st).
    replace (cell_of (fib_level e) st + 1 - 1) with (cell_of (fib_level e) st) by lia.
    repeat split; try reflexivity.
    change (attr_of (fib_count e) "calls" st1 = Some (AVal (VInt (k + 1)))).
    apply attr_of_assigned.
  - unfold key_of, hashable_key. cbn. rewrite Hh. reflexivity.
  - exact Hhit.
Qed.

(** ** [functools.wraps] and stacked wrappers *)

Lemma def_wrapper_run owner wrapped st g :
  functions st !! wrapped = Some g ->
  wrapped <> next st ->
  def_wrapper owner wrapped st
  = Reply (Ret (next st)) (allocated (next st) (wrapper_object g wrapped) st) [].
Proof.
  intros Hg Hne. unfold def_wrapper.
  erewrite bind_quiet by reflexivity.
  erewrite bind_quiet; [reflexivity|].
  unfold update_wrapper. cbn [functions set_functions set_next].
  rewrite lookup_insert_eq, lookup_insert_ne by done. rewrite Hg.
  cbn [fn_name fn_qualname fn_doc fn_dict]. rewrite insert_insert_eq. reflexivity.
Qed.

Lemma is_Some_assigned a g name x st b :
  functions st !! a = Some g ->
  is_Some (functions st !! b) -> is_Some (functions (assigned a g name x st) !! b).
Proof.
  intros Hg Hb. unfold assigned. cbn [functions set_functions].
  destruct (decide (a = b)) as [->|Hne].
  - rewrite lookup_insert_eq. eauto.
  - rewrite lookup_insert_ne by done. exact Hb.
Qed.

Lemma countcalls_run (T : pyfunc) st :
  is_Some (functions st !! fid T) ->
  exists f,
    countcalls T st
    = Reply (Ret (Func (next st) (countcalls_wrapper (next st) T)))
        (assigned (next st) f "calls" (AVal (VInt 0)) (allocated (next st) f st)) [].
Proof.
  intros HT. destruct (def_wrapper_ok "countcalls" (fid T) st HT) as [f Hf].
  exists f. unfold countcalls, countcalls_new.
  erewrite bind_quiet; [reflexivity|].
  rewrite (bind_quiet _ _ _ _ _ Hf).
  erewrite bind_quiet; [reflexivity|].
  apply setattr_run. cbn [functions set_functions]. apply lookup_insert_eq.
Qed.

Lemma memo_new_run wrapped st g :
  functions st !! wrapped = Some g ->
  wrapped <> S (next st) ->
  memo_new wrapped st
  = Reply (Ret (next st, S (next st)))
      (allocated (S (next st)) (wrapper_object g wrapped) (with_dict (next st) st)) [].
Proof.
  intros Hg Hne. unfold memo_new.
  erewrite bind_quiet by reflexivity.
  erewrite bind_quiet; [reflexivity|].
  apply (def_wrapper_run "memo" wrapped (set_next _ (set_dicts _ st)) g); assumption.
Qed.

Lemma memo_run (func : pyfunc) st g :
  functions st !! fid func = Some g ->
  fid func <> S (next st) ->
  memo func st
  = Reply (Ret (Func (S (next st)) (memo_wrapper (next st) func)))
      (allocated (S (next st)) (wrapper_object g (fid func)) (with_dict (next st) st)) [].
Proof.
  intros Hg Hne. unfold memo.
  rewrite (bind_quiet _ _ _ _ _ (memo_new_run _ _ _ Hg Hne)). reflexivity.
Qed.

Lemma trace_new_run wrapped st g :
  functions st !! wrapped = Some g ->
  wrapped <> S (next st) ->
  trace_new wrapped st
  = Reply (Ret (next st, S (next st)))
      (allocated (S (next st)) (wrapper_object g wrapped)
         (set_next (S (next st)) (set_cells (<[next st := 0]> (cells st)) st))) [].
Proof.
  intros Hg Hne. unfold trace_new.
  erewrite bind_quiet by reflexivity.
  erewrite bind_quiet; [reflexivity|].
  apply (def_wrapper_run _ wrapped (set_next _ (set_cells _ st)) g); assumption.
Qed.

Lemma wrapper_object_attr g wrapped name x :
  name <> "__wrapped__" ->
  fn_dict g !! name = Some x ->
  fn_dict (wrapper_object g wrapped) !! name = Some x.
Proof.
  intros Hne Hx. cbn [wrapper_object fn_dict].
  rewrite lookup_insert_ne by done. apply lookup_union_Some_l. exact Hx.
Qed.

Lemma stale_over_calls (W : callable) (n inner outer : addr)
    (calls : list (list value * kwargs)) :
  keeps_copy W n inner outer ->
  forall st k x,
    calls_of outer st = Some x ->
    calls_of inner st = Some (AVal (VInt k)) ->
    calls_of outer (final (call_all W calls st)) = Some x
    /\ calls_of inner (final (call_all W calls st))
       = Some (AVal (VInt (k + (cell_of n (final (call_all W calls st)) - cell_of n st)))).
Proof.
  intros Hstep. induction calls as [|[args kw] rest IH]; intros st k x Hout Hin.
  - cbn. split; [exact Hout|]. rewrite Hin. do 3 f_equal. lia.
  - rewrite call_all_cons_final.
    destruct (Hstep args kw st k x Hout Hin) as (j & Ho & Hi & Hc).
    destruct (IH _ _ _ Ho Hi) as [IH1 IH2]. split; [exact IH1|].
    rewrite IH2. do 3 f_equal. lia.
Qed.

(** One call of the [countcalls] wrapper itself. *)
Lemma countcalls_wrapper_keeps_copy (T : pyfunc) (n inner outer : addr) :
  inner <> outer ->
  keeps_functions (fcall T) ->
  counts_in n (fcall T) ->
  forall args kw st k x,
    calls_of outer st = Some x ->
    calls_of inner st = Some (AVal (VInt k)) ->
    calls_of outer (final (countcalls_wrapper inner T args kw st)) = Some x
    /\ calls_of inner (final (countcalls_wrapper inner T args kw st))
       = Some (AVal (VInt (k + 1)))
    /\ cell_of n (final (countcalls_wrapper inner T args kw st)) = cell_of n st + 1
    /\ forall a, is_Some (functions st !! a) ->
         is_Some (functions (final (countcalls_wrapper inner T args kw st)) !! a).
Proof.
  intros Hne HkeepF Hcount args kw st k x Hout Hin.
  destruct (attr_of_inv _ _ _ _ Hin) as (g & Hg & Hk).
  rewrite (countcalls_wrapper_run _ _ _ _ _ _ _ Hg Hk).
  set (st1 := assigned inner g "calls" (AVal (VInt (k + 1))) st).
  assert (Hf : functions (final (fcall T args kw st1)) = functions st1) by apply HkeepF.
  unfold calls_of, attr_of. rewrite Hf. repeat split.
  - unfold st1, assigned. cbn [functions set_functions].
    rewrite lookup_insert_ne by done. exact Hout.
  - apply (attr_of_assigned inner g "calls").
  - rewrite Hcount. reflexivity.
  - intros a Ha. apply is_Some_assigned; assumption.
Qed.

Lemma disable_keeps_copy (T : pyfunc) (n inner outer : addr) :
  inner <> outer ->
  keeps_functions (fcall T) ->
  counts_in n (fcall T) ->
  keeps_copy (disable_wrapper (Func inner (countcalls_wrapper inner T))) n inner outer.
Proof.
  intros Hne HkeepF Hcount args kw st k x Hout Hin. exists 1.
  destruct (countcalls_wrapper_keeps_copy T n inner outer Hne HkeepF Hcount
              args kw st k x Hout Hin) as (H1 & H2 & H3 & _).
  auto.
Qed.

Lemma decorator_keeps_copy (T : pyfunc) (n inner outer : addr) :
  inner <> outer ->
  keeps_functions (fcall T) ->
  counts_in n (fcall T) ->
  keeps_copy (decorator_wrapper (Func inner (countcalls_wrapper inner T))) n inner outer.
Proof.
  intros Hne HkeepF Hcount args kw st k x Hout Hin. exists 1.
  destruct (countcalls_wrapper_keeps_copy T n inner outer Hne HkeepF Hcount
              args kw st k x Hout Hin) as (H1 & H2 & H3 & _).
  auto.
Qed.

Lemma cell_of_entered_ne n l st : n <> l -> cell_of n (entered l st) = cell_of n st.
Proof.
  intros Hne. unfold cell_of, entered. cbn [cells set_cells].
  rewrite lookup_insert_ne by done. reflexivity.
Qed.

Lemma cell_of_left_ne n l st : n <> l -> cell_of n (left l st) = cell_of n st.
Proof.
  intros Hne. unfold cell_of, left. cbn [cells set_cells].
  rewrite lookup_insert_ne by done. reflexivity.
Qed.

Lemma trace_keeps_copy (delim : string) (T : pyfunc) (n l inner outer : addr) :
  inner <> outer ->
  n <> l ->
  keeps_functions (fcall T) ->
  counts_in n (fcall T) ->
  keeps_copy (trace_wrapper delim l (Func inner (countcalls_wrapper inner T))) n inner outer.
Proof.
  intros Hne Hnl HkeepF Hcount args kw st k x Hout Hin. exists 1.
  destruct (attr_of_inv _ _ _ _ Hin) as (g & Hg & _).
  erewrite (trace_wrapper_run delim l _ args kw st g) by exact Hg.
  cbv zeta. cbn [fcall fid].
  destruct (countcalls_wrapper_keeps_copy T n inner outer Hne HkeepF Hcount
              args kw (entered l st) k x Hout Hin) as (H1 & H2 & H3 & H4).
  rewrite (cell_of_entered_ne n l st Hnl) in H3.
  destruct (res (countcalls_wrapper inner T args kw (entered l st))) as [r|e];
    cbn [final]; [|auto].
  destruct (H4 inner) as [g' Hg']; [change (functions (entered l st)) with (functions st); eauto|].
  rewrite Hg'. cbn [final]. rewrite (cell_of_left_ne n l _ Hnl). auto.
Qed.

Lemma memo_keeps_copy (T : pyfunc) (n c inner outer : addr) :
  inner <> outer ->
  keeps_functions (fcall T) ->
  counts_in n (fcall T) ->
  keeps_copy (memo_wrapper c (Func inner (countcalls_wrapper inner T))) n inner outer.
Proof.
  intros Hne HkeepF Hcount args kw st k x Hout Hin.
  destruct (hashable_key (key_of args kw)) eqn:Hh.
  2:{ rewrite (memo_wrapper_unhashable _ _ _ _ _ Hh). exists 0. cbn [final].
      rewrite !Z.add_0_r. auto. }
  destruct (cache_lookup (key_of args kw) (cache_of c st)) as [v|] eqn:Hl.
  { rewrite (memo_wrapper_hit _ _ _ _ _ _ Hh Hl). exists 0. cbn [final].
    rewrite !Z.add_0_r. auto. }
  rewrite (memo_wrapper_miss _ _ _ _ _ Hh Hl). cbv zeta. cbn [fcall].
  destruct (countcalls_wrapper_keeps_copy T n inner outer Hne HkeepF Hcount
              args kw st k x Hout Hin) as (H1 & H2 & H3 & _).
  exists 1. destruct (res (countcalls_wrapper inner T args kw st)); cbn [final]; auto.
Qed.

(** What the store holds once [countcalls(T)] has been built at [a] and an
    outer wrapper copied from it at [o]. *)
Lemma copied_wrapper_facts (a o : addr) (g : function) (st : store) :
  a <> o ->
  functions st !! a = Some g ->
  fn_dict g !! "calls" = Some (AVal (VInt 0)) ->
  let st1 := allocated o (wrapper_object g a) st in
  wrapped_of o st1 = Some (AFun a)
  /\ calls_of o st1 = Some (AVal (VInt 0))
  /\ calls_of a st1 = Some (AVal (VInt 0)).
Proof.
  intros Hne Hg Hk st1. unfold wrapped_of, calls_of, attr_of, st1, allocated.
  cbn [functions set_functions set_next]. rewrite lookup_insert_eq.
  rewrite lookup_insert_ne by done. rewrite Hg. repeat split.
  - cbn [wrapper_object fn_dict]. apply lookup_insert_eq.
  - apply wrapper_object_attr; [done | exact Hk].
  - exact Hk.
Qed.

(** Claim C10, as amended.  With [disable], [decorator], [memo] or
    [trace(delim)] applied on top of [countcalls(T)], the outer wrapper's
    [calls] is the copy [functools.wraps] made when the combinator was
    applied: it reads 0 then and after every sequence of calls, while the
    [countcalls] wrapper it points to with [__wrapped__] holds the number
    of times [T] ran.  For [trace], the cell in which [T] counts its runs
    is not the one that holds the tracer's depth. *)
Theorem outer_calls_is_a_stale_copy (T : pyfunc) (n : addr) (st0 : store) (delim : string)
    (calls : list (list value * kwargs)) :
  is_Some (functions st0 !! fid T) ->
  keeps_functions (fcall T) ->
  counts_in n (fcall T) ->
  stale_copy_under disable T n st0 calls
  /\ stale_copy_under decorator T n st0 calls
  /\ stale_copy_under memo T n st0 calls
  /\ (n <> S (next st0) -> stale_copy_under (trace delim) T n st0 calls).
Proof.
  intros HT HkeepF Hcount.
  destruct (countcalls_run T st0 HT) as [f Hc].
  set (a := next st0) in *.
  set (sta := assigned a f "calls" (AVal (VInt 0)) (allocated a f st0)) in *.
  set (inner := Func a (countcalls_wrapper a T)).
  set (g := set_dict (<["calls" := AVal (VInt 0)]> (fn_dict f)) f).
  assert (Hin : functions sta !! a = Some g).
  { unfold sta, assigned. cbn [functions set_functions]. apply lookup_insert_eq. }
  assert (Hk : fn_dict g !! "calls" = Some (AVal (VInt 0))).
  { unfold g. cbn [fn_dict set_dict]. apply lookup_insert_eq. }
  assert (Hnext : next sta = S a) by reflexivity.
  assert (Hfin : forall (W : callable) (o : addr) (st1 : store),
            a <> o ->
            keeps_copy W n a o ->
            wrapped_of o st1 = Some (AFun a)
            /\ calls_of o st1 = Some (AVal (VInt 0))
            /\ calls_of a st1 = Some (AVal (VInt 0)) ->
            wrapped_of o st1 = Some (AFun a)
            /\ calls_of o st1 = Some (AVal (VInt 0))
            /\ let st := final (call_all W calls st1) in
               calls_of o st = Some (AVal (VInt 0))
               /\ calls_of a st = Some (AVal (VInt (cell_of n st - cell_of n st1)))).
  { intros W o st1 Hne Hstep (Hw & Ho & Hi). split; [exact Hw|]. split; [exact Ho|].
    destruct (stale_over_calls W n a o calls Hstep st1 0 _ Ho Hi) as [H1 H2].
    cbv zeta. split; [exact H1|]. etransitivity; [exact H2|]. do 3 f_equal. }
  repeat split.
  - (* disable *)
    exists inner. unfold stale_copy_under. rewrite Hc. cbn [res final].
    unfold disable.
    rewrite (bind_quiet _ _ _ _ _ (def_wrapper_run "disable" (fid inner) sta g Hin
                                     ltac:(rewrite Hnext; cbn; lia))).
    cbn [ret]. eexists _, _. split; [reflexivity|]. split; [reflexivity|].
    rewrite Hnext. cbn [fid fcall]. apply Hfin; [lia | |].
    + apply disable_keeps_copy; [lia | assumption | assumption].
    + apply (copied_wrapper_facts a (S a) g sta); [lia | exact Hin | exact Hk].
  - (* decorator *)
    exists inner. unfold stale_copy_under. rewrite Hc. cbn [res final].
    unfold decorator.
    rewrite (bind_quiet _ _ _ _ _ (def_wrapper_run "decorator" (fid inner) sta g Hin
                                     ltac:(rewrite Hnext; cbn; lia))).
    cbn [ret]. eexists _, _. split; [reflexivity|]. split; [reflexivity|].
    rewrite Hnext. cbn [fid fcall]. apply Hfin; [lia | |].
    + apply decorator_keeps_copy; [lia | assumption | assumption].
    + apply (copied_wrapper_facts a (S a) g sta); [lia | exact Hin | exact Hk].
  - (* memo *)
    exists inner. unfold stale_copy_under. rewrite Hc. cbn [res final].
    rewrite (memo_run inner sta g Hin ltac:(rewrite Hnext; cbn; lia)).
    eexists _, _. split; [reflexivity|]. split; [reflexivity|].
    rewrite Hnext. cbn [fid fcall]. apply Hfin; [lia | |].
    + apply memo_keeps_copy; [lia | assumption | assumption].
    + apply (copied_wrapper_facts a (S (S a)) g (with_dict (S a) sta));
        [lia | exact Hin | exact Hk].
  - (* trace *)
    intros Hn. exists inner. unfold stale_copy_under. rewrite Hc. cbn [res final].
    unfold trace.
    rewrite (bind_quiet _ _ _ _ _ (trace_new_run (fid inner) sta g Hin
                                     ltac:(rewrite Hnext; cbn; lia))).
    cbn [ret fst snd]. eexists _, _. split; [reflexivity|]. split; [reflexivity|].
    rewrite Hnext. cbn [fid fcall]. apply Hfin; [lia | |].
    + apply trace_keeps_copy; [lia | exact Hn | assumption | assumption].
    + apply (copied_wrapper_facts a (S (S a)) g
               (set_next (S (S a)) (set_cells (<[S a := 0]> (cells sta)) sta)));
        [lia | exact Hin | exact Hk].
Qed.

Lemma stale_copy_under_inv (mk : pyfunc -> M pyfunc) (T : pyfunc) (n : addr) (st0 : store)
    (calls : list (list value * kwargs)) (inner outer : pyfunc) (st1 : store) :
  res (countcalls T st0) = Ret inner ->
  mk inner (final (countcalls T st0)) = Reply (Ret outer) st1 [] ->
  stale_copy_under mk T n st0 calls ->
  calls_of (fid outer) (final (call_all (fcall outer) calls st1)) = Some (AVal (VInt 0)).
Proof.
  intros E1 E2 (i & o & s & H1 & H2 & _ & _ & H5 & _).
  rewrite E1 in H1. injection H1 as <-.
  rewrite E2 in H2. injection H2 as <- <-. exact H5.
Qed.

(** ** [n_ary] *)

Lemma bind_assoc {A B C} (m : M A) (f : A -> M B) (g : B -> M C) st :
  bind (bind m f) g st = bind m (fun a => bind (f a) g) st.
Proof.
  unfold bind. destruct (m st) as [[a|e] s out]; [|reflexivity].
  destruct (f a s) as [[b|e] s' out']; [|reflexivity].
  destruct (g b s') as [o s'' out'']. rewrite app_assoc. reflexivity.
Qed.

Lemma bind_ext {A B} (m : M A) (f g : A -> M B) st :
  (forall a s, f a s = g a s) -> bind m f st = bind m g st.
Proof.
  intros H. unfold bind. destruct (m st) as [[a|e] s out]; [|reflexivity].
  rewrite H. reflexivity.
Qed.

Lemma for_each_app l1 l2 body r st :
  for_each (l1 ++ l2) body r st
  = bind (for_each l1 body r) (fun r' => for_each l2 body r') st.
Proof.
  revert r st. induction l1 as [|i l1 IH]; intros r st.
  - cbn [app for_each]. erewrite bind_quiet by reflexivity. reflexivity.
  - cbn [app for_each]. rewrite bind_assoc. apply bind_ext. intros a s. apply IH.
Qed.

(** One operand: returned as it is, whatever [func] is. *)
Lemma n_ary_one (func : pyfunc) (a : value) (st : store) :
  n_ary_wrapper func [a] [] st = Reply (Ret a) st [].
Proof. reflexivity. Qed.

Lemma n_ary_cons (func : pyfunc) a rest st :
  n_ary_wrapper func (a :: rest) [] st
  = bind (n_ary_wrapper func rest []) (fun acc => n_ary_step func a acc) st.
Proof.
  unfold n_ary_wrapper. cbn [rev]. rewrite for_each_app.
  apply bind_ext. intros acc s. cbn [for_each].
  unfold bind. destruct (n_ary_step func a acc s) as [[r|e] s' out]; cbn;
    rewrite ?app_nil_r; reflexivity.
Qed.

(** Where [None] never shows up as the last operand or as a result of
    [func], the wrapper computes the right fold. *)
Lemma n_ary_right_fold (func : pyfunc) (args : list value) (st : store) :
  args <> [] ->
  List.last args VNone <> VNone ->
  (forall a b s, res (fcall func [a; b] [] s) <> Ret VNone) ->
  n_ary_wrapper func args [] st = right_fold func args st
  /\ res (right_fold func args st) <> Ret VNone.
Proof.
  intros Hne Hlast Hop. revert st. induction args as [|a rest IH]; [done|]. intros st.
  destruct rest as [|b rest'].
  - cbn in Hlast. split; [reflexivity|]. cbn. congruence.
  - assert (Hrest : b :: rest' <> []) by done.
    assert (Hlast' : List.last (b :: rest') VNone <> VNone) by exact Hlast.
    specialize (IH Hrest Hlast').
    rewrite n_ary_cons. cbn [right_fold].
    change (match rest' with [] => ret b | _ :: _ => let* acc := right_fold func rest' in fcall func [b; acc] [] end)
      with (right_fold func (b :: rest')).
    destruct (IH st) as [IH1 IH2].
    destruct (right_fold func (b :: rest') st) as [[acc|e] s out] eqn:E.
    + cbn [res] in IH2.
      rewrite (bind_ret _ _ _ _ _ _ IH1), (bind_ret _ _ _ _ _ _ E).
      assert (n_ary_step func a acc = fcall func [a; acc] []) as ->.
      { destruct acc; try reflexivity. congruence. }
      split; [reflexivity|]. cbn [res]. apply Hop.
    + rewrite (bind_raise _ _ _ _ _ _ IH1), (bind_raise _ _ _ _ _ _ E).
      split; [reflexivity|]. cbn. congruence.
Qed.

(** ** Counterexamples *)

(** Claim C1 as stated fails.  [fib(3)] prints an entry and an exit line
    for the second [fib(1)], whose argument is cached by then; and a call
    of [fib(1)] after [fib(2)] prints two lines although [(1,)] is in
    the cache. *)
Lemma fib_cache_hit_prints :
  res (fib_new empty_store) = Ret fib_env0
  /\ output (fib_global "#" fib_env0 4 [VInt 3] [] (final (fib_new empty_store)))
     = [" --> fib(3,)"; "# --> fib(2,)"; "## --> fib(1,)"; "## <-- fib(1,) == 1";
        "## --> fib(0,)"; "## <-- fib(0,) == 1"; "# <-- fib(2,) == 2";
        "# --> fib(1,)"; "# <-- fib(1,) == 1"; " <-- fib(3,) == 3"]
  /\ ~ cache_hit_silent "#" fib_env0 4
         (final (fib_global "#" fib_env0 4 [VInt 2] [] (final (fib_new empty_store))))
         (VInt 1).
Proof.
  split; [vm_compute; reflexivity|]. split; [vm_compute; reflexivity|].
  intros H.
  assert (Hhit : cache_mem (key_of [VInt 1] [])
     (cache_of (fib_cache fib_env0)
        (final (fib_global "#" fib_env0 4 [VInt 2] [] (final (fib_new empty_store))))) = true)
    by (vm_compute; reflexivity).
  assert (Hout : output (fib_global "#" fib_env0 4 [VInt 1] []
        (final (fib_global "#" fib_env0 4 [VInt 2] [] (final (fib_new empty_store)))))
      = [" --> fib(1,)"; " <-- fib(1,) == 1"]) by (vm_compute; reflexivity).
  specialize (H Hhit). rewrite Hout in H. discriminate H.
Qed.

(** What [g(1)] prints and leaves. *)
Lemma swallow_output :
  res (trace_wrapper "#" 1%nat swallow_target [VInt 1] [] swallow_store) = Ret (VInt 1)
  /\ cell_of 1%nat swallow_store = 0
  /\ output (trace_wrapper "#" 1%nat swallow_target [VInt 1] [] swallow_store)
     = [" --> g(1,)"; "# --> g(0,)"; "# <-- g(1,) == 1"]
  /\ cell_of 1%nat (final (trace_wrapper "#" 1%nat swallow_target [VInt 1] [] swallow_store)) = 1.
Proof. repeat split; vm_compute; reflexivity. Qed.

(** Claim C5 as stated fails.  [g(1)] returns 1, was entered at depth 0,
    and leaves the depth at 1 because the nested [g(0)] raised after its
    increment; the exit line of [g(1)] carries one delimiter. *)
Lemma swallowed_failure_breaks_symmetry :
  ~ depth_symmetric "#" 1%nat swallow_target [VInt 1] [] swallow_store.
Proof.
  unfold depth_symmetric. intros H. destruct swallow_output as (Hres & H0 & _ & H1).
  destruct (H (VInt 1) Hres) as [_ Hl].
  rewrite H1, H0 in Hl. discriminate Hl.
Qed.

(** What three calls of [countcalls(countcalls(foo))] return and leave. *)
Lemma counted_twice_reads_3 :
  res counted_twice = Ret [Ret (VInt 7); Ret (VInt 6); Ret (VInt 7)]
  /\ calls_of 2%nat (final counted_twice) = Some (AVal (VInt 3))
  /\ calls_of 1%nat (final counted_twice) = Some (AVal (VInt 3)).
Proof. repeat split; vm_compute; reflexivity. Qed.

(** Claim C10 as stated fails.  [countcalls] forwards metadata as the
    other combinators do, and applied on top of [countcalls(foo)] it
    assigns a [calls] of its own: after three calls the outer attribute
    reads 3, not 0. *)
Lemma counter_on_counter_counts :
  ~ stale_copy_under countcalls foo_counting 7%nat foo_store
      [ints [4; 3]; ints [4; 2]; ints [4; 3]].
Proof.
  intros H.
  pose proof (stale_copy_under_inv countcalls foo_counting 7%nat foo_store _
                (Func 1%nat (countcalls_wrapper 1%nat foo_counting))
                (Func 2%nat (countcalls_wrapper 2%nat
                               (Func 1%nat (countcalls_wrapper 1%nat foo_counting))))
                _ eq_refl eq_refl H) as H0.
  destruct counted_twice_reads_3 as (_ & H3 & _).
  pose proof (eq_trans (eq_sym H3) H0) as F. discriminate F.
Qed.

(** ** The sample targets *)

Lemma lift_final {A} (o : outcome A) st : final (lift o st) = st.
Proof. destruct o; reflexivity. Qed.

Lemma foo_body_final args kw st : final (foo_body args kw st) = st.
Proof.
  unfold foo_body. destruct (bind_params ["a"; "b"] args kw) as [[|a [|b [|c l]]]|];
    try reflexivity. apply lift_final.
Qed.

Lemma instrumented_cells n (T : callable) args kw st :
  (forall args kw st, final (T args kw st) = st) ->
  final (instrumented n T args kw st) = set_cells (<[n := cell_of n st + 1]> (cells st)) st.
Proof.
  intros HT. unfold instrumented.
  erewrite bind_quiet by reflexivity. erewrite bind_quiet by reflexivity.
  apply HT.
Qed.

Lemma instrumented_counts_in n (T : callable) :
  (forall args kw st, final (T args kw st) = st) -> counts_in n (instrumented n T).
Proof.
  intros HT args kw st. rewrite (instrumented_cells _ _ _ _ _ HT).
  unfold cell_of at 1. cbn [cells set_cells]. rewrite lookup_insert_eq. reflexivity.
Qed.

Lemma instrumented_keeps_dict n c (T : callable) :
  (forall args kw st, final (T args kw st) = st) -> keeps_dict c (instrumented n T).
Proof. intros HT args kw st. rewrite (instrumented_cells _ _ _ _ _ HT). reflexivity. Qed.

Lemma instrumented_keeps_functions n (T : callable) :
  (forall args kw st, final (T args kw st) = st) -> keeps_functions (instrumented n T).
Proof. intros HT args kw st. rewrite (instrumented_cells _ _ _ _ _ HT). reflexivity. Qed.

(** Three calls of [countcalls(foo)], one of them raising: [calls] is 3. *)
Lemma countcalls_counts_calls_made_witness :
  exists w,
    res (countcalls foo_raw foo_store) = Ret w /\
    calls_of (fid w)
      (final (call_all (fcall w) [ints [4; 3]; ints [4]; ([VNone; VInt 1], [])]
                (final (countcalls foo_raw foo_store))))
    = Some (AVal (VInt 3)).
Proof.
  apply (countcalls_counts_calls_made foo_raw foo_store
           [ints [4; 3]; ints [4]; ([VNone; VInt 1], [])]).
  - vm_compute. eexists. reflexivity.
  - intros args kw st. cbn [fcall foo_raw]. rewrite foo_body_final. reflexivity.
Defined.

(** [foo(1, 3)] then [foo(True, 3)] through [memo]: one run of [foo]. *)
Lemma memo_single_evaluation_witness :
  let T := foo_counting in
  let first := memo_wrapper 2%nat T [VInt 1; VInt 3] [] empty_store in
  let second := memo_wrapper 2%nat T [VBool true; VInt 3] [] (final first) in
  res first = Ret (VInt 4)
  /\ output first = output (fcall T [VInt 1; VInt 3] [] empty_store)
  /\ res second = Ret (VInt 4) /\ final second = final first /\ output second = []
  /\ cell_of 7%nat (final second) = cell_of 7%nat empty_store + 1
  /\ forall args2 kw2,
       hashable_key (key_of args2 kw2) = true ->
       key_eq (key_of [VInt 1; VInt 3] []) (key_of args2 kw2) = false ->
       cache_lookup (key_of args2 kw2) (cache_of 2%nat empty_store) = None ->
       cell_of 7%nat (final (memo_wrapper 2%nat T args2 kw2 (final second)))
       = cell_of 7%nat empty_store + 2.
Proof.
  apply (memo_single_evaluation foo_counting 2%nat 7%nat empty_store
           [VInt 1; VInt 3] [VBool true; VInt 3] [] [] (VInt 4)).
  - apply instrumented_counts_in, foo_body_final.
  - apply instrumented_keeps_dict, foo_body_final.
  - reflexivity.
  - reflexivity.
  - reflexivity.
  - vm_compute. reflexivity.
Defined.

(** [foo(4, None)] raises [TypeError] through [memo] and is retried. *)
Lemma memo_error_not_cached_witness :
  let T := foo_counting in
  let first := memo_wrapper 2%nat T [VInt 4; VNone] [] empty_store in
  res first = Raise TypeError
  /\ final first = final (fcall T [VInt 4; VNone] [] empty_store)
  /\ output first = output (fcall T [VInt 4; VNone] [] empty_store)
  /\ cache_lookup (key_of [VInt 4; VNone] []) (cache_of 2%nat (final first)) = None
  /\ cell_of 7%nat (final first) = cell_of 7%nat empty_store + 1
  /\ cell_of 7%nat (final (memo_wrapper 2%nat T [VInt 4; VNone] [] (final first)))
     = cell_of 7%nat empty_store + 2.
Proof.
  apply (memo_error_not_cached foo_counting 2%nat 7%nat empty_store [VInt 4; VNone] []
           TypeError).
  - apply instrumented_counts_in, foo_body_final.
  - apply instrumented_keeps_dict, foo_body_final.
  - reflexivity.
  - reflexivity.
  - vm_compute. reflexivity.
Defined.

Lemma foo_store_lookup : functions foo_store !! fid foo_raw = Some foo_object.
Proof. vm_compute. reflexivity. Qed.

(** [foo(4)] raises [TypeError] through the tracer. *)
Lemma trace_error_has_no_exit_line_witness :
  let t := fcall foo_raw [VInt 4] [] (entered 1%nat foo_store) in
  let r := trace_wrapper "#" 1%nat foo_raw [VInt 4] [] foo_store in
  cell_of 1%nat (entered 1%nat foo_store) = cell_of 1%nat foo_store + 1
  /\ res r = Raise TypeError
  /\ output r = entry_line "#" (cell_of 1%nat foo_store) (fn_name foo_object) [VInt 4]
                :: output t
  /\ final r = final t.
Proof.
  apply (trace_error_has_no_exit_line "#" 1%nat foo_raw [VInt 4] [] foo_store foo_object
           TypeError).
  - exact foo_store_lookup.
  - vm_compute. reflexivity.
Defined.

(** [foo(4, 3)] through the tracer. *)
Lemma trace_lines_symmetric_witness :
  let t := fcall foo_raw [VInt 4; VInt 3] [] (entered 1%nat foo_store) in
  let r := trace_wrapper "#" 1%nat foo_raw [VInt 4; VInt 3] [] foo_store in
  res r = Ret (VInt 7)
  /\ output r = [entry_line "#" (cell_of 1%nat foo_store) (fn_name foo_object) [VInt 4; VInt 3]]
                ++ output t
                ++ [exit_line "#" (cell_of 1%nat foo_store) (fn_name foo_object)
                      [VInt 4; VInt 3] (VInt 7)]
  /\ cell_of 1%nat (final r) = cell_of 1%nat foo_store.
Proof.
  apply (trace_lines_symmetric "#" 1%nat foo_raw [VInt 4; VInt 3] [] foo_store foo_object
           (VInt 7)).
  - exact foo_store_lookup.
  - vm_compute. reflexivity.
  - vm_compute. reflexivity.
  - vm_compute. reflexivity.
Defined.

(** The four combinators on [countcalls(foo)], called three times. *)
Lemma outer_calls_is_a_stale_copy_witness :
  let calls := [ints [4; 3]; ints [4; 2]; ints [4; 3]] in
  stale_copy_under disable foo_counting 7%nat foo_store calls
  /\ stale_copy_under decorator foo_counting 7%nat foo_store calls
  /\ stale_copy_under memo foo_counting 7%nat foo_store calls
  /\ stale_copy_under (trace "#") foo_counting 7%nat foo_store calls.
Proof.
  intros calls.
  destruct (outer_calls_is_a_stale_copy foo_counting 7%nat foo_store "#" calls)
    as (H1 & H2 & H3 & H4).
  - vm_compute. eexists. reflexivity.
  - apply instrumented_keeps_functions, foo_body_final.
  - apply instrumented_counts_in, foo_body_final.
  - repeat split; [exact H1 | exact H2 | exact H3 | apply H4; vm_compute; lia].
Defined.

(** [fib(1)] called after [fib(2)]. *)
Lemma fib_cache_hit_is_traced_witness :
  let r := fib_global "#" fib_env0 1 [VInt 1] [] fib_store2 in
  let depth := cell_of (fib_level fib_env0) fib_store2 in
  res r = Ret (VInt 1)
  /\ output r = [entry_line "#" depth (fn_name fib_memo_object) [VInt 1];
                 exit_line "#" depth (fn_name fib_memo_object) [VInt 1] (VInt 1)]
  /\ dicts (final r) = dicts fib_store2
  /\ calls_of (fib_count fib_env0) (final r) = Some (AVal (VInt (3 + 1)))
  /\ cell_of (fib_level fib_env0) (final r) = depth.
Proof.
  apply (fib_cache_hit_is_traced "#" fib_env0 0 fib_store2 (VInt 1) (VInt 1) 3
           fib_count_object fib_memo_object).
  - vm_compute. reflexivity.
  - vm_compute. reflexivity.
  - vm_compute. reflexivity.
  - reflexivity.
  - vm_compute. reflexivity.
Defined.

(** ** The decorated functions of the module *)

(** Claim C2.  After the calls [(4, 3)], [(4, 3)], [(4, 3, 2)],
    [countcalls(memo(n_ary(add)))] reads [calls = 3], and under
    [memo(countcalls(n_ary(add)))] the inner [countcalls] wrapper reads
    [calls = 2]: the cache hit never reaches it. *)
Theorem composition_order_is_observable :
  (exists w1 r,
      decorate_and_call (count_memo_n_ary "add" foo_body) three_calls = Some (w1, r)
      /\ res r = Ret [Ret (VInt 7); Ret (VInt 7); Ret (VInt 9)]
      /\ calls_of w1 (final r) = Some (AVal (VInt 3)))
  /\ (exists w2 inner r,
      decorate_and_call (memo_count_n_ary "add" foo_body) three_calls = Some (w2, r)
      /\ res r = Ret [Ret (VInt 7); Ret (VInt 7); Ret (VInt 9)]
      /\ wrapped_of w2 (final r) = Some (AFun inner)
      /\ calls_of inner (final r) = Some (AVal (VInt 2))).
Proof.
  split.
  - eexists _, _. split; [vm_compute; reflexivity|]. split; vm_compute; reflexivity.
  - eexists _, _, _. split; [vm_compute; reflexivity|].
    split; [vm_compute; reflexivity|]. split; vm_compute; reflexivity.
Qed.

(** Claim C4 fails where [None] is an operand.  With [None] as the last
    of two operands the wrapper returns the first operand and never calls
    [func], where the fold of the docstring is [func(a, None)]. *)
Theorem n_ary_none_operand (func : pyfunc) (a : value) (st : store) :
  n_ary_wrapper func [a; VNone] [] st = Reply (Ret a) st []
  /\ right_fold func [a; VNone] st = fcall func [a; VNone] [] st.
Proof.
  split; [reflexivity|]. cbn [right_fold].
  erewrite bind_quiet by reflexivity. reflexivity.
Qed.

(** [n_ary(foo)(4, None)] is 4, where [foo(4, None)] raises. *)
Lemma n_ary_add_none (st : store) :
  n_ary_wrapper foo_raw [VInt 4; VNone] [] st = Reply (Ret (VInt 4)) st []
  /\ right_fold foo_raw [VInt 4; VNone] st = Reply (Raise TypeError) st [].
Proof. split; reflexivity. Qed.

(** Claim C9 fails for [n_ary].  The wrapper [n_ary] returns is named
    ["wrapper"] and has no docstring, whatever the target's name and
    docstring are: [n_ary] does not use [functools.wraps]. *)
Theorem n_ary_wrapper_has_its_own_name (func : pyfunc) (st : store) :
  exists w,
    res (n_ary func st) = Ret w
    /\ name_of (fid w) (final (n_ary func st)) = Some "wrapper"
    /\ doc_of (fid w) (final (n_ary func st)) = Some None.
Proof.
  unfold n_ary. erewrite bind_quiet by reflexivity. cbn [ret res final fid].
  eexists. split; [reflexivity|].
  unfold name_of, doc_of. cbn [functions set_functions set_next].
  rewrite lookup_insert_eq. split; reflexivity.
Qed.

(** The module's [foo] is named ["wrapper"]; the function it decorates
    is named ["foo"]. *)
Lemma foo_is_named_wrapper :
  exists w r,
    decorate_and_call foo [] = Some (w, r)
    /\ name_of w (final r) = Some "wrapper"
    /\ name_of 0%nat (final r) = Some "foo".
Proof. eexists _, _. split; [vm_compute; reflexivity|]. split; vm_compute; reflexivity. Qed.

(** ** Further properties *)

Lemma allocated_metadata a g wrapped st :
  name_of a (allocated a (wrapper_object g wrapped) st) = Some (fn_name g)
  /\ doc_of a (allocated a (wrapper_object g wrapped) st) = Some (fn_doc g)
  /\ wrapped_of a (allocated a (wrapper_object g wrapped) st) = Some (AFun wrapped)
  /\ forall name x,
       name <> "__wrapped__" -> name <> "calls" ->
       fn_dict g !! name = Some x ->
       attr_of a name (allocated a (wrapper_object g wrapped) st) = Some x.
Proof.
  unfold name_of, doc_of, wrapped_of, attr_of, allocated.
  cbn [functions set_functions set_next]. rewrite lookup_insert_eq.
  cbn [wrapper_object fn_name fn_doc fn_dict fmap option_fmap option_map].
  repeat split.
  - apply lookup_insert_eq.
  - intros name x Hw _ Hx. rewrite lookup_insert_ne by done.
    apply lookup_union_Some_l. exact Hx.
Qed.

Lemma assigned_metadata a g name x st b :
  functions st !! a = Some g ->
  name_of b (assigned a g name x st) = name_of b st
  /\ doc_of b (assigned a g name x st) = doc_of b st.
Proof.
  intros Hg. unfold name_of, doc_of, assigned. cbn [functions set_functions].
  destruct (decide (a = b)) as [->|Hne].
  - rewrite lookup_insert_eq, Hg. split; reflexivity.
  - rewrite lookup_insert_ne by done. split; reflexivity.
Qed.

(** Property X1.  The wrapper that [disable], [decorator], [countcalls],
    [memo] or [trace(delim)] makes of a function bears that function's
    [__name__] and [__doc__], points to it with [__wrapped__], and has
    every attribute the function had when it was decorated (other than
    [calls], which [countcalls] sets itself). *)
Theorem wraps_forwards_metadata (func : pyfunc) (st : store) (g : function)
    (delim : string) :
  functions st !! fid func = Some g ->
  (fid func < next st)%nat ->
  forwards_metadata disable func st g
  /\ forwards_metadata decorator func st g
  /\ forwards_metadata countcalls func st g
  /\ forwards_metadata memo func st g
  /\ forwards_metadata (trace delim) func st g.
Proof.
  intros Hg Hlt.
  assert (Hne : fid func <> next st) by lia.
  assert (Hne' : fid func <> S (next st)) by lia.
  repeat split.
  - unfold forwards_metadata, disable.
    rewrite (bind_quiet _ _ _ _ _ (def_wrapper_run "disable" _ _ _ Hg Hne)).
    cbn [ret res final fid]. eexists. split; [reflexivity|]. apply allocated_metadata.
  - unfold forwards_metadata, decorator.
    rewrite (bind_quiet _ _ _ _ _ (def_wrapper_run "decorator" _ _ _ Hg Hne)).
    cbn [ret res final fid]. eexists. split; [reflexivity|]. apply allocated_metadata.
  - unfold forwards_metadata, countcalls, countcalls_new.
    erewrite bind_quiet.
    2:{ rewrite (bind_quiet _ _ _ _ _ (def_wrapper_run "countcalls" _ _ _ Hg Hne)).
        erewrite bind_quiet; [reflexivity|].
        apply setattr_run. cbn [allocated functions set_functions]. apply lookup_insert_eq. }
    cbn [ret res final fid]. eexists. split; [reflexivity|].
    destruct (allocated_metadata (next st) g (fid func) st) as (Hn & Hd & Hw & Ha).
    destruct (assigned_metadata (next st) (wrapper_object g (fid func)) "calls"
                (AVal (VInt 0)) (allocated (next st) (wrapper_object g (fid func)) st)
                (next st)) as [Hn' Hd'].
    { cbn [allocated functions set_functions]. apply lookup_insert_eq. }
    cbn [fid]. rewrite Hn', Hd', Hn, Hd. repeat split.
    + unfold wrapped_of, attr_of, assigned. cbn [functions set_functions].
      rewrite lookup_insert_eq. cbn [fn_dict set_dict wrapper_object].
      rewrite lookup_insert_ne by done. apply lookup_insert_eq.
    + intros name x Hw' Hc Hx. unfold attr_of, assigned. cbn [functions set_functions].
      rewrite lookup_insert_eq. cbn [fn_dict set_dict wrapper_object].
      rewrite !lookup_insert_ne by done. apply lookup_union_Some_l. exact Hx.
  - unfold forwards_metadata. rewrite (memo_run func st g Hg Hne').
    cbn [res final fid]. eexists. split; [reflexivity|]. apply allocated_metadata.
  - unfold forwards_metadata, trace.
    rewrite (bind_quiet _ _ _ _ _ (trace_new_run _ _ _ Hg Hne')).
    cbn [ret res final fid snd]. eexists. split; [reflexivity|]. apply allocated_metadata.
Qed.

Lemma wraps_forwards_metadata_witness :
  forwards_metadata disable foo_raw foo_store foo_object
  /\ forwards_metadata decorator foo_raw foo_store foo_object
  /\ forwards_metadata countcalls foo_raw foo_store foo_object
  /\ forwards_metadata memo foo_raw foo_store foo_object
  /\ forwards_metadata (trace "####") foo_raw foo_store foo_object.
Proof.
  apply (wraps_forwards_metadata foo_raw foo_store foo_object "####").
  - exact foo_store_lookup.
  - vm_compute. lia.
Defined.

Lemma memo_wrapper_keeps_entry c T args kw st k v :
  keeps_dict c (fcall T) ->
  cache_lookup k (cache_of c st) = Some v ->
  cache_lookup k (cache_of c (final (memo_wrapper c T args kw st))) = Some v.
Proof.
  intros Hkeep Hk.
  destruct (hashable_key (key_of args kw)) eqn:Hh.
  2:{ rewrite (memo_wrapper_unhashable _ _ _ _ _ Hh). exact Hk. }
  destruct (cache_lookup (key_of args kw) (cache_of c st)) as [r|] eqn:Hl.
  { rewrite (memo_wrapper_hit _ _ _ _ _ _ Hh Hl). exact Hk. }
  rewrite (memo_wrapper_miss _ _ _ _ _ Hh Hl). cbv zeta.
  pose proof (keeps_dict_cache_of c (fcall T) args kw st Hkeep) as Hc.
  destruct (res (fcall T args kw st)) as [r|e]; cbn [final].
  - rewrite cache_of_remember, Hc. rewrite cache_lookup_store_ne; [exact Hk|].
    destruct (key_eq (key_of args kw) k) eqn:E; [|reflexivity].
    rewrite (cache_lookup_eq _ _ _ E) in Hl. congruence.
  - rewrite Hc. exact Hk.
Qed.

(** Property X3.  The [memo] wrapper never drops or replaces an entry:
    what the cache holds for a key it still holds after any sequence of
    calls, for a target that leaves the cache alone. *)
Theorem memo_cache_is_stable (c : addr) (T : pyfunc)
    (calls : list (list value * kwargs)) (st : store) (k : key) (v : value) :
  keeps_dict c (fcall T) ->
  cache_lookup k (cache_of c st) = Some v ->
  cache_lookup k (cache_of c (final (call_all (memo_wrapper c T) calls st))) = Some v.
Proof.
  intros Hkeep. revert st. induction calls as [|[args kw] rest IH]; intros st Hk.
  - exact Hk.
  - rewrite call_all_cons_final. apply IH. apply memo_wrapper_keeps_entry; assumption.
Qed.

Lemma memo_cache_is_stable_witness :
  cache_lookup (key_of [VInt 4; VInt 3] [])
    (cache_of 2%nat
       (final (call_all (memo_wrapper 2%nat foo_counting)
                 [ints [1; 2]; ints [4; 3]; ints [4]]
                 (remember 2%nat (key_of [VInt 4; VInt 3] []) (VInt 7) empty_store))))
  = Some (VInt 7).
Proof.
  apply (memo_cache_is_stable 2%nat foo_counting [ints [1; 2]; ints [4; 3]; ints [4]]
           (remember 2%nat (key_of [VInt 4; VInt 3] []) (VInt 7) empty_store)
           (key_of [VInt 4; VInt 3] []) (VInt 7)).
  - apply instrumented_keeps_dict, foo_body_final.
  - vm_compute. reflexivity.
Defined.

Lemma foo_body_never_none a b s : res (fcall foo_raw [a; b] [] s) <> Ret VNone.
Proof.
  cbn [fcall foo_raw]. unfold foo_body. cbn [bind_params kw_find option_map].
  unfold py_add. destruct a, b; cbn; try discriminate;
    repeat match goal with |- context [bool_to_Z ?b] => destruct b end; discriminate.
Qed.

(** Property X5.  For one or more operands, where [None] is neither the
    last operand nor a result of [func], the [n_ary] wrapper is the right
    fold of the docstring, [func(a1, func(a2, ... func(a_{n-1}, a_n)))],
    effects of [func] included. *)
Theorem n_ary_folds_from_the_right (func : pyfunc) (args : list value) (st : store) :
  args <> [] ->
  List.last args VNone <> VNone ->
  (forall a b s, res (fcall func [a; b] [] s) <> Ret VNone) ->
  n_ary_wrapper func args [] st = right_fold func args st.
Proof. intros H1 H2 H3. apply n_ary_right_fold; assumption. Qed.

Lemma n_ary_folds_from_the_right_witness :
  n_ary_wrapper foo_raw [VInt 4; VInt 3; VInt 2] [] empty_store
  = right_fold foo_raw [VInt 4; VInt 3; VInt 2] empty_store.
Proof.
  apply (n_ary_folds_from_the_right foo_raw [VInt 4; VInt 3; VInt 2] empty_store).
  - discriminate.
  - discriminate.
  - apply foo_body_never_none.
Defined.

Lemma n_ary_foo_sum (l : list Z) (z : Z) (st : store) :
  n_ary_wrapper foo_raw (map VInt (l ++ [z])) [] st
  = Reply (Ret (VInt (sum_Z (l ++ [z])))) st [].
Proof.
  revert st. induction l as [|a l IH]; intros st.
  - cbn. rewrite Z.add_0_r. reflexivity.
  - cbn [app map]. rewrite n_ary_cons. rewrite (bind_quiet _ _ _ _ _ (IH st)).
    cbn [sum_Z fold_right]. reflexivity.
Qed.

Lemma n_ary_bar_product (l : list Z) (z : Z) (st : store) :
  n_ary_wrapper bar_raw (map VInt (l ++ [z])) [] st
  = Reply (Ret (VInt (product_Z (l ++ [z])))) st [].
Proof.
  revert st. induction l as [|a l IH]; intros st.
  - cbn. rewrite Z.mul_1_r. reflexivity.
  - cbn [app map]. rewrite n_ary_cons. rewrite (bind_quiet _ _ _ _ _ (IH st)).
    cbn [product_Z fold_right]. reflexivity.
Qed.

Lemma hashable_ints (l : list Z) : hashable_key (key_of (map VInt l) []) = true.
Proof.
  unfold hashable_key, key_of. cbn [fst snd sorted_items foldr forallb].
  rewrite andb_true_r. induction l; [reflexivity|exact IHl].
Qed.

Lemma nonempty_snoc {A} (l : list A) : l <> [] -> exists l' z, l = l' ++ [z].
Proof.
  intros H. destruct (exists_last H) as (l' & z & ->). eauto.
Qed.

Lemma call_all_one f args kw st :
  call_all f [(args, kw)] st
  = Reply (Ret [res (f args kw st)]) (final (f args kw st)) (output (f args kw st)).
Proof.
  cbn [call_all]. unfold bind, attempt, ret.
  destruct (f args kw st) as [o s out]. cbn. rewrite app_nil_r. reflexivity.
Qed.

(** Property X7.  The module's [foo], called once with one or more
    integers, returns their sum and prints nothing. *)
Theorem foo_adds_its_arguments (l : list Z) :
  l <> [] ->
  exists w r,
    decorate_and_call foo [ints l] = Some (w, r)
    /\ res r = Ret [Ret (VInt (sum_Z l))]
    /\ output r = [].
Proof.
  intros Hl. destruct (nonempty_snoc l Hl) as (l' & z & ->).
  unfold decorate_and_call.
  assert (Hfoo : foo empty_store
    = Reply (Ret (Func 4%nat (memo_wrapper 3%nat
                    (Func 2%nat (countcalls_wrapper 2%nat
                       (Func 1%nat (n_ary_wrapper foo_raw)))))))
        (final (foo empty_store)) []) by reflexivity.
  rewrite Hfoo. set (st := final (foo empty_store)).
  eexists _, _. split; [reflexivity|].
  unfold ints. cbn [fcall fid]. rewrite call_all_one. cbn [res output].
  rewrite memo_wrapper_miss; [| apply hashable_ints | vm_compute; reflexivity].
  cbv zeta. cbn [fcall].
  assert (Hg : exists g, functions st !! 2%nat = Some g
                 /\ fn_dict g !! "calls" = Some (AVal (VInt 0))).
  { eexists. split; vm_compute; reflexivity. }
  destruct Hg as (g & Hg & Hc).
  rewrite (countcalls_wrapper_run _ _ _ _ _ _ _ Hg Hc). cbn [fcall].
  rewrite n_ary_foo_sum. cbn [res output]. split; reflexivity.
Qed.

Lemma foo_adds_its_arguments_witness :
  exists w r,
    decorate_and_call foo [ints [4; 3; 2]] = Some (w, r)
    /\ res r = Ret [Ret (VInt (sum_Z [4; 3; 2]))]
    /\ output r = [].
Proof. apply (foo_adds_its_arguments [4; 3; 2]). discriminate. Defined.

(** Property X8.  The module's [bar], called once with one or more
    integers, returns their product, prints nothing, and reads
    [calls = 1] afterwards. *)
Theorem bar_multiplies_its_arguments (l : list Z) :
  l <> [] ->
  exists w r,
    decorate_and_call bar [ints l] = Some (w, r)
    /\ res r = Ret [Ret (VInt (product_Z l))]
    /\ output r = []
    /\ calls_of w (final r) = Some (AVal (VInt 1)).
Proof.
  intros Hl. destruct (nonempty_snoc l Hl) as (l' & z & ->).
  unfold decorate_and_call.
  assert (Hbar : bar empty_store
    = Reply (Ret (Func 4%nat (countcalls_wrapper 4%nat
                    (Func 3%nat (memo_wrapper 2%nat
                       (Func 1%nat (n_ary_wrapper bar_raw)))))))
        (final (bar empty_store)) []) by reflexivity.
  rewrite Hbar. set (st := final (bar empty_store)).
  eexists _, _. split; [reflexivity|].
  unfold ints. cbn [fcall fid]. rewrite call_all_one. cbn [res output final].
  assert (Hg : exists g, functions st !! 4%nat = Some g
                 /\ fn_dict g !! "calls" = Some (AVal (VInt 0))).
  { eexists. split; vm_compute; reflexivity. }
  destruct Hg as (g & Hg & Hc).
  rewrite (countcalls_wrapper_run _ _ _ _ _ _ _ Hg Hc). cbn [fcall].
  rewrite memo_wrapper_miss; [| apply hashable_ints | vm_compute; reflexivity].
  cbv zeta. cbn [fcall]. rewrite n_ary_bar_product. cbn [res output final].
  repeat split. apply attr_of_assigned.
Qed.

Lemma bar_multiplies_its_arguments_witness :
  exists w r,
    decorate_and_call bar [ints [4; 3; 2; 1]] = Some (w, r)
    /\ res r = Ret [Ret (VInt (product_Z [4; 3; 2; 1]))]
    /\ output r = []
    /\ calls_of w (final r) = Some (AVal (VInt 1)).
Proof. apply (bar_multiplies_its_arguments [4; 3; 2; 1]). discriminate. Defined.

Lemma ltb_lt a b : String.ltb a b = true <-> String_as_OT.lt a b.
Proof.
  unfold String.ltb. rewrite <- String_as_OT.cmp_lt. unfold String_as_OT.cmp.
  destruct (String.compare a b); split; congruence.
Qed.

#[local] Instance name_lt_trans : Transitive name_lt.
Proof.
  intros x y z. unfold name_lt. rewrite !ltb_lt. apply String_as_OT.lt_trans.
Qed.

Lemma name_lt_asym x y : name_lt x y -> name_lt y x -> x = y.
Proof.
  unfold name_lt. rewrite !ltb_lt. intros H1 H2.
  pose proof (String_as_OT.lt_trans _ _ _ H1 H2) as H.
  exfalso. exact (String_as_OT.lt_not_eq _ _ H eq_refl).
Qed.

Lemma leb_ltb a b : a <> b -> String.leb a b = true -> String.ltb a b = true.
Proof.
  unfold String.leb, String.ltb. intros Hne.
  destruct (String.compare a b) eqn:E; try congruence.
  apply String.compare_eq_iff in E. congruence.
Qed.

Lemma not_leb_ltb a b : String.leb a b = false -> String.ltb b a = true.
Proof.
  unfold String.leb, String.ltb. rewrite (String.compare_antisym a b).
  destruct (String.compare b a); cbn; congruence.
Qed.

Lemma insert_item_perm x l : insert_item x l ≡ₚ x :: l.
Proof.
  induction l as [|y l IH]; [reflexivity|]. cbn [insert_item].
  destruct (String.leb (fst x) (fst y)); [reflexivity|].
  rewrite IH. apply perm_swap.
Qed.

Lemma sorted_items_perm kw : sorted_items kw ≡ₚ kw.
Proof.
  induction kw as [|x kw IH]; [reflexivity|].
  cbn [sorted_items foldr]. rewrite insert_item_perm. constructor. exact IH.
Qed.

Lemma insert_item_hd x y l :
  name_lt y x -> HdRel name_lt y l -> HdRel name_lt y (insert_item x l).
Proof.
  intros Hyx Hl. destruct l as [|z l]; cbn [insert_item].
  - constructor. exact Hyx.
  - destruct (String.leb (fst x) (fst z)); constructor; [exact Hyx|].
    inversion Hl; assumption.
Qed.

Lemma insert_item_sorted x l :
  fst x ∉ map fst l -> Sorted name_lt l -> Sorted name_lt (insert_item x l).
Proof.
  intros Hx Hs. induction Hs as [|y l Hs IH Hhd]; cbn [insert_item].
  - repeat constructor.
  - destruct (String.leb (fst x) (fst y)) eqn:E.
    + constructor; [constructor; assumption|]. constructor.
      apply leb_ltb; [|exact E]. intros Heq. apply Hx. rewrite Heq. cbn. left.
    + constructor.
      * apply IH. intros Hin. apply Hx. cbn. right. exact Hin.
      * apply insert_item_hd; [|exact Hhd]. apply not_leb_ltb. exact E.
Qed.

Lemma sorted_items_sorted kw : NoDup (map fst kw) -> Sorted name_lt (sorted_items kw).
Proof.
  induction kw as [|x kw IH]; cbn [map sorted_items foldr]; intros Hnd.
  - constructor.
  - apply NoDup_cons in Hnd as [Hx Hnd]. apply insert_item_sorted; [|auto].
    rewrite (sorted_items_perm kw). exact Hx.
Qed.

Lemma sorted_items_permutation kw kw' :
  NoDup (map fst kw) -> kw ≡ₚ kw' -> sorted_items kw = sorted_items kw'.
Proof.
  intros Hnd Hp.
  assert (Hnd' : NoDup (map fst kw')) by (rewrite <- Hp; exact Hnd).
  apply (Sorted_unique_strong name_lt).
  - intros x1 x2 _ _. apply name_lt_asym.
  - apply sorted_items_sorted, Hnd.
  - apply sorted_items_sorted, Hnd'.
  - rewrite !sorted_items_perm. exact Hp.
Qed.

(** Property X4.  The key is built from the keyword items sorted by name,
    so the order in which keywords are written does not matter: a call
    whose keywords are a permutation of a cached call's returns the cached
    result without running the target. *)
Theorem memo_ignores_keyword_order (c : addr) (T : pyfunc) (args : list value)
    (kw kw' : kwargs) (st : store) (v : value) :
  NoDup (map fst kw) ->
  kw ≡ₚ kw' ->
  hashable_key (key_of args kw) = true ->
  cache_lookup (key_of args kw) (cache_of c st) = Some v ->
  key_of args kw' = key_of args kw
  /\ memo_wrapper c T args kw' st = Reply (Ret v) st [].
Proof.
  intros Hnd Hp Hh Hl.
  assert (Hk : key_of args kw' = key_of args kw).
  { unfold key_of. rewrite (sorted_items_permutation kw kw' Hnd Hp). reflexivity. }
  split; [exact Hk|]. apply memo_wrapper_hit; rewrite Hk; assumption.
Qed.

Lemma memo_ignores_keyword_order_witness :
  key_of [] [("b", VInt 3); ("a", VInt 4)] = key_of [] [("a", VInt 4); ("b", VInt 3)]
  /\ memo_wrapper 2%nat foo_counting [] [("b", VInt 3); ("a", VInt 4)]
       (remember 2%nat (key_of [] [("a", VInt 4); ("b", VInt 3)]) (VInt 7) empty_store)
     = Reply (Ret (VInt 7))
         (remember 2%nat (key_of [] [("a", VInt 4); ("b", VInt 3)]) (VInt 7) empty_store) [].
Proof.
  apply (memo_ignores_keyword_order 2%nat foo_counting []
           [("a", VInt 4); ("b", VInt 3)] [("b", VInt 3); ("a", VInt 4)]
           (remember 2%nat (key_of [] [("a", VInt 4); ("b", VInt 3)]) (VInt 7) empty_store)
           (VInt 7)).
  - cbn [map fst]. apply NoDup_cons. split; [|apply NoDup_singleton].
    intros Hin. apply list_elem_of_singleton in Hin. discriminate Hin.
  - apply perm_swap.
  - reflexivity.
  - vm_compute. reflexivity.
Defined.

Lemma fib_of_small n : n <= 1 -> fib_of n = 1.
Proof.
  intros H. unfold fib_of.
  destruct (Z.to_nat n) as [|[|k]] eqn:E; try reflexivity. lia.
Qed.

Lemma fib_of_step n : 1 < n -> fib_of n = fib_of (n - 1) + fib_of (n - 2).
Proof.
  intros H. unfold fib_of.
  replace (Z.to_nat n) with (S (S (Z.to_nat (n - 2)))) by lia.
  replace (Z.to_nat (n - 1)) with (S (Z.to_nat (n - 2))) by lia.
  reflexivity.
Qed.

Lemma fib_ready_counted e st g k :
  functions st !! fib_count e = Some g ->
  fib_ready e st ->
  fib_ready e (assigned (fib_count e) g "calls" (AVal (VInt k)) st).
Proof.
  intros Hg (_ & Hm & Hc). repeat split.
  - eexists _, k. unfold assigned. cbn [functions set_functions].
    rewrite lookup_insert_eq. split; [reflexivity|]. cbn [fn_dict set_dict].
    apply lookup_insert_eq.
  - apply is_Some_assigned; assumption.
  - exact Hc.
Qed.

Lemma fib_ready_cells e st c : fib_ready e st -> fib_ready e (set_cells c st).
Proof. intros H. exact H. Qed.

Lemma key_eq_ints n m : key_eq (key_of [VInt n] []) (key_of [VInt m] []) = true -> n = m.
Proof.
  unfold key_eq, key_of. cbn. rewrite !andb_true_r. apply Z.eqb_eq.
Qed.

Lemma fib_ready_remember e st n :
  fib_ready e st ->
  fib_ready e (remember (fib_cache e) (key_of [VInt n] []) (VInt (fib_of n)) st).
Proof.
  intros (Hk & Hm & Hc). repeat split; [exact Hk | exact Hm |].
  intros m v. rewrite cache_of_remember.
  destruct (key_eq (key_of [VInt n] []) (key_of [VInt m] [])) eqn:E.
  - rewrite <- (cache_lookup_eq _ _ _ E), cache_lookup_store.
    apply key_eq_ints in E. subst m. congruence.
  - rewrite (cache_lookup_store_ne _ _ _ _ E). apply Hc.
Qed.

Lemma fib_body_small fib n st :
  n <= 1 -> fib_body fib [VInt n] [] st = Reply (Ret (VInt 1)) st [].
Proof.
  intros H. unfold fib_body. cbn [bind_params kw_find option_map].
  erewrite bind_quiet.
  2:{ unfold py_le_int. cbn [as_int lift ret]. reflexivity. }
  replace (Z.leb n 1) with true by (symmetry; apply Z.leb_le; exact H). reflexivity.
Qed.

Lemma fib_body_large (fib : callable) n st x y s1 o1 s2 o2 :
  1 < n ->
  fib [VInt (n - 1)] [] st = Reply (Ret (VInt x)) s1 o1 ->
  fib [VInt (n - 2)] [] s1 = Reply (Ret (VInt y)) s2 o2 ->
  fib_body fib [VInt n] [] st = Reply (Ret (VInt (x + y))) s2 (o1 ++ o2).
Proof.
  intros H H1 H2. unfold fib_body. cbn [bind_params kw_find option_map].
  erewrite bind_quiet.
  2:{ unfold py_le_int. cbn [as_int lift ret]. reflexivity. }
  replace (Z.leb n 1) with false by (symmetry; apply Z.leb_gt; exact H).
  erewrite bind_quiet by reflexivity.
  rewrite (bind_ret _ _ _ _ _ _ H1).
  erewrite bind_quiet by reflexivity.
  rewrite (bind_ret _ _ _ _ _ _ H2).
  cbn [lift py_add as_int ret res final output]. rewrite app_nil_r. reflexivity.
Qed.

Lemma fib_runs (delim : string) (e : fib_env) (depth : nat) :
  forall (n : Z) (st : store),
    fib_ready e st ->
    (Z.to_nat n < depth)%nat ->
    exists s out,
      fib_global delim e depth [VInt n] [] st = Reply (Ret (VInt (fib_of n))) s out
      /\ fib_ready e s
      /\ cell_of (fib_level e) s = cell_of (fib_level e) st.
Proof.
  induction depth as [|d IH]; intros n st Hready Hdepth; [lia|].
  destruct Hready as ((g & k & Hg & Hk) & Hm & Hc).
  cbn [fib_global]. rewrite (countcalls_wrapper_run _ _ _ _ _ _ _ Hg Hk). cbn [fcall].
  set (st1 := assigned (fib_count e) g "calls" (AVal (VInt (k + 1))) st).
  assert (Hready1 : fib_ready e st1).
  { apply fib_ready_counted; [exact Hg|]. repeat split; eauto. }
  assert (Hm1 : is_Some (functions st1 !! fib_memo e)) by apply Hready1.
  destruct Hm1 as [fm Hfm].
  erewrite (trace_wrapper_run delim (fib_level e) _ [VInt n] [] st1 fm) by exact Hfm.
  cbv zeta. cbn [fcall fid].
  set (st2 := entered (fib_level e) st1).
  assert (Hready2 : fib_ready e st2) by exact Hready1.
  assert (Hh : hashable_key (key_of [VInt n] []) = true) by reflexivity.
  (* what the memo wrapper does *)
  assert (Hmemo : exists s out,
     memo_wrapper (fib_cache e)
       (Func (fib_raw e) (fib_body (fib_global delim e d))) [VInt n] [] st2
     = Reply (Ret (VInt (fib_of n))) s out
     /\ fib_ready e s /\ cell_of (fib_level e) s = cell_of (fib_level e) st2).
  { destruct (cache_lookup (key_of [VInt n] []) (cache_of (fib_cache e) st2)) as [v|] eqn:Hl.
    - rewrite (memo_wrapper_hit _ _ _ _ _ _ Hh Hl).
      destruct Hready2 as (_ & _ & Hc2). rewrite (Hc2 _ _ Hl). eauto.
    - rewrite (memo_wrapper_miss _ _ _ _ _ Hh Hl). cbv zeta. cbn [fcall].
      destruct (Z_le_gt_dec n 1) as [Hsmall|Hlarge].
      + rewrite (fib_body_small _ _ _ Hsmall). cbn [res final output].
        assert (E1 : VInt 1 = VInt (fib_of n)) by (rewrite (fib_of_small n Hsmall); reflexivity).
        rewrite E1.
        eexists _, _. split; [reflexivity|]. split; [|reflexivity].
        apply fib_ready_remember. exact Hready2.
      + destruct (IH (n - 1) st2 Hready2) as (s3 & o3 & Hr3 & Hready3 & Hl3); [lia|].
        destruct (IH (n - 2) s3 Hready3) as (s4 & o4 & Hr4 & Hready4 & Hl4); [lia|].
        assert (H1n : 1 < n) by lia.
        rewrite (fib_body_large _ _ _ _ _ _ _ _ _ H1n Hr3 Hr4).
        cbn [res final output]. rewrite <- (fib_of_step n) by lia.
        eexists _, _. split; [reflexivity|]. split.
        * apply fib_ready_remember. exact Hready4.
        * rewrite cell_of_remember. congruence. }
  destruct Hmemo as (s & out & Hrun & Hreadys & Hlevel).
  rewrite Hrun. cbn [res final output].
  destruct Hreadys as (Hks & [fm' Hfm'] & Hcs).
  rewrite Hfm'. eexists _, _. split; [reflexivity|]. split.
  - repeat split; eauto.
  - rewrite cell_of_left, Hlevel. unfold st2. rewrite cell_of_entered.
    change (cell_of (fib_level e) st1) with (cell_of (fib_level e) st). lia.
Qed.

Lemma fib_new_ready : fib_ready fib_env0 (final (fib_new empty_store)).
Proof.
  repeat split.
  - eexists _, 0. split; vm_compute; reflexivity.
  - vm_compute. eexists. reflexivity.
  - intros n v.
    assert (E : cache_of (fib_cache fib_env0) (final (fib_new empty_store)) = [])
      by (vm_compute; reflexivity).
    rewrite E. discriminate.
Qed.

(** Property X9.  Through the whole stack
    [countcalls(trace(delim)(memo(fib)))], in any store where the stack can
    run and whose cached values are right, [fib(n)] returns the [n]-th
    number of 1, 1, 2, 3, 5, ... (1 for [n <= 1]) when the nesting of calls
    allowed exceeds [n]; the cache stays right and the tracer's depth is
    what it was. *)
Theorem fib_returns_fibonacci (delim : string) (e : fib_env) (depth : nat) (n : Z)
    (st : store) :
  fib_ready e st ->
  (Z.to_nat n < depth)%nat ->
  let r := fib_global delim e depth [VInt n] [] st in
  res r = Ret (VInt (fib_of n))
  /\ fib_ready e (final r)
  /\ cell_of (fib_level e) (final r) = cell_of (fib_level e) st.
Proof.
  intros Hready Hdepth.
  destruct (fib_runs delim e depth n st Hready Hdepth) as (s & out & Hrun & Hs & Hl).
  cbv zeta. rewrite Hrun. cbn [res final]. auto.
Qed.

Lemma fib_returns_fibonacci_witness :
  let r := fib_global "####" fib_env0 11 [VInt 10] [] (final (fib_new empty_store)) in
  res r = Ret (VInt (fib_of 10))
  /\ fib_ready fib_env0 (final r)
  /\ cell_of (fib_level fib_env0) (final r)
     = cell_of (fib_level fib_env0) (final (fib_new empty_store)).
Proof.
  apply (fib_returns_fibonacci "####" fib_env0 11 10 (final (fib_new empty_store))).
  - exact fib_new_ready.
  - vm_compute. lia.
Defined.

Example fib_of_10 : fib_of 10 = 89.
Proof. reflexivity. Qed.

Lemma fib_step_hit delim e d n st g k v :
  functions st !! fib_count e = Some g ->
  fn_dict g !! "calls" = Some (AVal (VInt k)) ->
  is_Some (functions st !! fib_memo e) ->
  cache_lookup (key_of [VInt n] []) (cache_of (fib_cache e) st) = Some v ->
  exists out,
    fib_global delim e (S d) [VInt n] [] st
    = Reply (Ret v) (left (fib_level e) (fib_entered e g k st)) out
    /\ length out = 2%nat.
Proof.
  intros Hg Hk Hm Hl. cbn [fib_global].
  rewrite (countcalls_wrapper_run _ _ _ _ _ _ _ Hg Hk). cbn [fcall].
  set (st1 := assigned (fib_count e) g "calls" (AVal (VInt (k + 1))) st).
  destruct (is_Some_assigned (fib_count e) g "calls" (AVal (VInt (k + 1))) st
              (fib_memo e) Hg Hm) as [fm Hfm]. fold st1 in Hfm.
  erewrite (trace_wrapper_run delim (fib_level e) _ [VInt n] [] st1 fm) by exact Hfm.
  cbv zeta. cbn [fcall fid].
  rewrite (memo_wrapper_hit _ _ _ _ _ v); [| reflexivity | exact Hl].
  cbn [res final output].
  change (functions (entered (fib_level e) st1)) with (functions st1). rewrite Hfm.
  eexists. split; reflexivity.
Qed.

Lemma fib_step_miss delim e d n st g k r s out :
  functions st !! fib_count e = Some g ->
  fn_dict g !! "calls" = Some (AVal (VInt k)) ->
  is_Some (functions st !! fib_memo e) ->
  cache_lookup (key_of [VInt n] []) (cache_of (fib_cache e) st) = None ->
  fib_body (fib_global delim e d) [VInt n] [] (fib_entered e g k st) = Reply (Ret r) s out ->
  is_Some (functions s !! fib_memo e) ->
  exists out',
    fib_global delim e (S d) [VInt n] [] st
    = Reply (Ret r)
        (left (fib_level e) (remember (fib_cache e) (key_of [VInt n] []) r s)) out'
    /\ length out' = S (S (length out)).
Proof.
  intros Hg Hk Hm Hl Hbody [fs Hfs]. cbn [fib_global].
  rewrite (countcalls_wrapper_run _ _ _ _ _ _ _ Hg Hk). cbn [fcall].
  set (st1 := assigned (fib_count e) g "calls" (AVal (VInt (k + 1))) st).
  destruct (is_Some_assigned (fib_count e) g "calls" (AVal (VInt (k + 1))) st
              (fib_memo e) Hg Hm) as [fm Hfm]. fold st1 in Hfm.
  erewrite (trace_wrapper_run delim (fib_level e) _ [VInt n] [] st1 fm) by exact Hfm.
  cbv zeta. cbn [fcall fid].
  rewrite memo_wrapper_miss; [| reflexivity | exact Hl].
  cbv zeta. cbn [fcall]. unfold fib_entered in Hbody. fold st1 in Hbody.
  rewrite Hbody. cbn [res final output].
  change (functions (remember (fib_cache e) (key_of [VInt n] []) r s)) with (functions s).
  rewrite Hfs. eexists. split; [reflexivity|].
  cbn [length]. rewrite length_app. cbn [length]. lia.
Qed.

Lemma fib_counted_entered e st k g :
  functions st !! fib_count e = Some g ->
  fib_counted e st k ->
  fib_counted e (fib_entered e g k st) (k + 1).
Proof.
  intros Hg [Hr _]. split.
  - apply (fib_ready_counted e st g (k + 1) Hg Hr).
  - apply attr_of_assigned.
Qed.

Lemma fib_counted_left e st k : fib_counted e st k -> fib_counted e (left (fib_level e) st) k.
Proof. intros H. exact H. Qed.

Lemma fib_counted_remember e st k n :
  fib_counted e st k ->
  fib_counted e (remember (fib_cache e) (key_of [VInt n] []) (VInt (fib_of n)) st) k.
Proof. intros [Hr Hc]. split; [apply fib_ready_remember; exact Hr | exact Hc]. Qed.

Lemma fib_counted_object e st k :
  fib_counted e st k ->
  exists g, functions st !! fib_count e = Some g
            /\ fn_dict g !! "calls" = Some (AVal (VInt k)).
Proof. intros [_ Hc]. apply (attr_of_inv _ _ _ _ Hc). Qed.

Lemma lookup_store_int i j v d :
  is_Some (cache_lookup (key_of [VInt j] []) (cache_store (key_of [VInt i] []) v d))
  <-> j = i \/ is_Some (cache_lookup (key_of [VInt j] []) d).
Proof.
  destruct (key_eq (key_of [VInt i] []) (key_of [VInt j] [])) eqn:E.
  - rewrite <- (cache_lookup_eq _ _ _ E), cache_lookup_store.
    apply key_eq_ints in E. split; eauto.
  - rewrite (cache_lookup_store_ne _ _ _ _ E). split; [eauto|].
    intros [->|H]; [|exact H].
    rewrite key_eq_refl in E. discriminate E.
Qed.

Lemma cache_of_left c l st : cache_of c (left l st) = cache_of c st.
Proof. reflexivity. Qed.

(** A first call with an argument below 2. *)
Lemma fib_small_miss delim e d n st k :
  n <= 1 ->
  fib_counted e st k ->
  cache_lookup (key_of [VInt n] []) (cache_of (fib_cache e) st) = None ->
  exists s out,
    fib_global delim e (S d) [VInt n] [] st = Reply (Ret (VInt (fib_of n))) s out
    /\ fib_counted e s (k + 1)
    /\ cache_of (fib_cache e) s
       = cache_store (key_of [VInt n] []) (VInt (fib_of n)) (cache_of (fib_cache e) st)
    /\ length out = 2%nat
    /\ cell_of (fib_level e) s = cell_of (fib_level e) st.
Proof.
  intros Hn Hc Hl. destruct (fib_counted_object e st k Hc) as (g & Hg & Hk).
  pose proof (fib_counted_entered e st k g Hg Hc) as Hc2.
  destruct (fib_step_miss delim e d n st g k (VInt (fib_of n)) (fib_entered e g k st) []
              Hg Hk) as (out & Hrun & Hlen).
  - apply Hc.
  - exact Hl.
  - rewrite (fib_of_small n Hn). apply fib_body_small. exact Hn.
  - apply Hc2.
  - eexists _, _. split; [exact Hrun|]. split; [|split; [|split]].
    + apply fib_counted_left, fib_counted_remember. exact Hc2.
    + rewrite cache_of_left, cache_of_remember. reflexivity.
    + exact Hlen.
    + rewrite cell_of_left, cell_of_remember. unfold fib_entered.
      rewrite cell_of_entered.
      change (cell_of (fib_level e) (assigned _ _ _ _ st)) with (cell_of (fib_level e) st).
      lia.
Qed.

(** A call whose argument is cached. *)
Lemma fib_cached_hit delim e d n st k :
  fib_counted e st k ->
  is_Some (cache_lookup (key_of [VInt n] []) (cache_of (fib_cache e) st)) ->
  exists s out,
    fib_global delim e (S d) [VInt n] [] st = Reply (Ret (VInt (fib_of n))) s out
    /\ fib_counted e s (k + 1)
    /\ cache_of (fib_cache e) s = cache_of (fib_cache e) st
    /\ length out = 2%nat
    /\ cell_of (fib_level e) s = cell_of (fib_level e) st.
Proof.
  intros Hc [v Hl]. destruct (fib_counted_object e st k Hc) as (g & Hg & Hk).
  assert (Hv : v = VInt (fib_of n)) by (apply Hc; exact Hl). subst v.
  destruct (fib_step_hit delim e d n st g k (VInt (fib_of n)) Hg Hk) as (out & Hrun & Hlen);
    [apply Hc | exact Hl |].
  eexists _, _. split; [exact Hrun|]. split; [|split; [|split]].
  - apply fib_counted_left, fib_counted_entered; assumption.
  - reflexivity.
  - exact Hlen.
  - rewrite cell_of_left. unfold fib_entered. rewrite cell_of_entered.
    change (cell_of (fib_level e) (assigned _ _ _ _ st)) with (cell_of (fib_level e) st).
    lia.
Qed.

(** A first call whose two recursive calls have run. *)
Lemma fib_large_miss delim e d n st k g s1 o1 s2 o2 k2 :
  1 < n ->
  fib_counted e st k ->
  functions st !! fib_count e = Some g ->
  cache_lookup (key_of [VInt n] []) (cache_of (fib_cache e) st) = None ->
  fib_global delim e d [VInt (n - 1)] [] (fib_entered e g k st)
  = Reply (Ret (VInt (fib_of (n - 1)))) s1 o1 ->
  fib_global delim e d [VInt (n - 2)] [] s1 = Reply (Ret (VInt (fib_of (n - 2)))) s2 o2 ->
  fib_counted e s2 k2 ->
  exists s out,
    fib_global delim e (S d) [VInt n] [] st = Reply (Ret (VInt (fib_of n))) s out
    /\ fib_counted e s k2
    /\ cache_of (fib_cache e) s
       = cache_store (key_of [VInt n] []) (VInt (fib_of n)) (cache_of (fib_cache e) s2)
    /\ length out = S (S (length o1 + length o2))
    /\ cell_of (fib_level e) s = cell_of (fib_level e) s2 - 1.
Proof.
  intros Hn Hc Hg Hl H1 H2 Hc2.
  destruct (fib_counted_object e st k Hc) as (g' & Hg' & Hk).
  assert (g' = g) by congruence. subst g'.
  destruct (fib_step_miss delim e d n st g k (VInt (fib_of n)) s2 (o1 ++ o2) Hg Hk)
    as (out & Hrun & Hlen).
  - apply Hc.
  - exact Hl.
  - rewrite (fib_of_step n Hn). apply (fib_body_large _ _ _ _ _ _ _ _ _ Hn H1 H2).
  - apply Hc2.
  - eexists _, _. split; [exact Hrun|]. split; [|split; [|split]].
    + apply fib_counted_left, fib_counted_remember. exact Hc2.
    + rewrite cache_of_left, cache_of_remember. reflexivity.
    + rewrite Hlen, length_app. reflexivity.
    + rewrite cell_of_left, cell_of_remember. reflexivity.
Qed.

Lemma fib_entered_level e g k st :
  cell_of (fib_level e) (fib_entered e g k st) = cell_of (fib_level e) st + 1.
Proof. unfold fib_entered. rewrite cell_of_entered. reflexivity. Qed.

Lemma fib_fresh_run (delim : string) (e : fib_env) (m : nat) :
  forall (d : nat) (st : store) (k : Z),
    (m + 1 <= d)%nat ->
    fib_counted e st k ->
    fib_cache_empty e st ->
    exists s out,
      fib_global delim e (S d) [VInt (Z.of_nat m + 2)] [] st
      = Reply (Ret (VInt (fib_of (Z.of_nat m + 2)))) s out
      /\ fib_counted e s (k + 2 * (Z.of_nat m + 2) - 1)
      /\ fib_cache_filled e (Z.of_nat m + 2) s
      /\ length out = Z.to_nat (4 * (Z.of_nat m + 2) - 2)
      /\ cell_of (fib_level e) s = cell_of (fib_level e) st.
Proof.
  induction m as [|m IH]; intros d st k Hd Hc Hempty;
    (destruct d as [|d]; [lia|]);
    destruct (fib_counted_object e st k Hc) as (g & Hg & Hk);
    pose proof (fib_counted_entered e st k g Hg Hc) as Hc1.
  - (* fib(2): fib(1) and fib(0) are both computed *)
    destruct (fib_small_miss delim e d 1 (fib_entered e g k st) (k + 1))
      as (s1 & o1 & Hr1 & Hc2 & Hd1 & Hn1 & Hl1); [lia | exact Hc1 | apply Hempty |].
    destruct (fib_small_miss delim e d 0 s1 (k + 1 + 1))
      as (s2 & o2 & Hr2 & Hc3 & Hd2 & Hn2 & Hl2); [lia | exact Hc2 | |].
    { rewrite Hd1. rewrite cache_lookup_store_ne by reflexivity. apply Hempty. }
    destruct (fib_large_miss delim e (S d) 2 st k g s1 o1 s2 o2 _ ltac:(lia) Hc Hg
                (Hempty 2) Hr1 Hr2 Hc3) as (s & out & Hr & Hc4 & Hd4 & Hn4 & Hl4).
    exists s, out. change (Z.of_nat 0 + 2) with 2. split; [exact Hr|].
    split; [|split; [|split]].
    + replace (k + 2 * 2 - 1) with (k + 1 + 1 + 1) by lia. exact Hc4.
    + intros j. rewrite Hd4, Hd2, Hd1. rewrite !lookup_store_int.
      change (cache_of (fib_cache e) (fib_entered e g k st)) with (cache_of (fib_cache e) st).
      rewrite (Hempty j). split.
      * intros [->|[->|[->|[x Hx]]]]; try lia. discriminate Hx.
      * intros Hj. assert (Hcases : j = 0 \/ j = 1 \/ j = 2) by lia.
        destruct Hcases as [Hj0|[Hj1|Hj2]]; auto.
    + rewrite Hn4, Hn1, Hn2. reflexivity.
    + rewrite Hl4, Hl2, Hl1, fib_entered_level. lia.
  - (* fib(n + 1): fib(n) fills the cache, fib(n - 1) is a hit *)
    set (n := Z.of_nat m + 2) in *.
    replace (Z.of_nat (S m) + 2) with (n + 1) by lia.
    destruct (IH d (fib_entered e g k st) (k + 1)) as (s1 & o1 & Hr1 & Hc2 & Hf1 & Hn1 & Hl1);
      [lia | exact Hc1 | exact Hempty |].
    destruct (fib_cached_hit delim e d (n - 1) s1 (k + 1 + 2 * n - 1))
      as (s2 & o2 & Hr2 & Hc3 & Hd2 & Hn2 & Hl2); [exact Hc2 | apply Hf1; lia |].
    assert (Hn : 1 < n + 1) by lia.
    destruct (fib_large_miss delim e (S d) (n + 1) st k g s1 o1 s2 o2
                (k + 1 + 2 * n - 1 + 1) Hn Hc Hg
                (Hempty (n + 1))) as (s & out & Hr & Hc4 & Hd4 & Hn4 & Hl4).
    { replace (n + 1 - 1) with n by lia. exact Hr1. }
    { replace (n + 1 - 2) with (n - 1) by lia. exact Hr2. }
    { exact Hc3. }
    exists s, out. split; [exact Hr|]. split; [|split; [|split]].
    + replace (k + 2 * (n + 1) - 1) with (k + 1 + 2 * n - 1 + 1) by lia. exact Hc4.
    + intros j. rewrite Hd4, Hd2, lookup_store_int, (Hf1 j). lia.
    + rewrite Hn4, Hn1, Hn2. lia.
    + rewrite Hl4, Hl2, Hl1, fib_entered_level. lia.
Qed.

Lemma fib_new_counted : fib_counted fib_env0 (final (fib_new empty_store)) 0.
Proof. split; [exact fib_new_ready | vm_compute; reflexivity]. Qed.

Lemma fib_new_cache_empty : fib_cache_empty fib_env0 (final (fib_new empty_store)).
Proof.
  intros j.
  assert (E : cache_of (fib_cache fib_env0) (final (fib_new empty_store)) = [])
    by (vm_compute; reflexivity).
  rewrite E. reflexivity.
Qed.

Lemma fib_new_run :
  fib_new empty_store = Reply (Ret fib_env0) (final (fib_new empty_store)) [].
Proof. vm_compute. reflexivity. Qed.

Lemma fib_run (delim : string) (depth : nat) :
  fib delim depth empty_store
  = Reply (Ret (Func 5%nat (fib_global delim fib_env0 depth)))
      (final (fib_new empty_store)) [].
Proof. unfold fib. rewrite (bind_quiet _ _ _ _ _ fib_new_run). reflexivity. Qed.

(** Property X10.  Memoisation makes [fib] linear: right after the module
    is loaded, [fib(n)] for [n >= 2] returns the [n]-th number, is counted
    [2n - 1] times in [fib.calls] and prints [4n - 2] trace lines. *)
Theorem fib_makes_linearly_many_calls (delim : string) (depth : nat) (n : Z) :
  2 <= n ->
  (Z.to_nat n <= depth)%nat ->
  exists w r,
    decorate_and_call (fib delim depth) [ints [n]] = Some (w, r)
    /\ res r = Ret [Ret (VInt (fib_of n))]
    /\ calls_of w (final r) = Some (AVal (VInt (2 * n - 1)))
    /\ length (output r) = Z.to_nat (4 * n - 2).
Proof.
  intros Hn Hdepth.
  destruct depth as [|d]; [lia|].
  destruct (fib_fresh_run delim fib_env0 (Z.to_nat (n - 2)) d (final (fib_new empty_store)) 0)
    as (s & out & Hrun & Hc & _ & Hlen & _);
    [lia | exact fib_new_counted | exact fib_new_cache_empty |].
  replace (Z.of_nat (Z.to_nat (n - 2)) + 2) with n in * by lia.
  unfold decorate_and_call.
  rewrite fib_run. eexists _, _. split; [reflexivity|].
  unfold ints. cbn [fcall fid map]. rewrite call_all_one, Hrun. cbn [res final output].
  split; [reflexivity|]. split; [|exact Hlen].
  destruct Hc as [_ Hc]. exact Hc.
Qed.

Lemma fib_makes_linearly_many_calls_witness :
  exists w r,
    decorate_and_call (fib "####" 3) [ints [3]] = Some (w, r)
    /\ res r = Ret [Ret (VInt (fib_of 3))]
    /\ calls_of w (final r) = Some (AVal (VInt (2 * 3 - 1)))
    /\ length (output r) = Z.to_nat (4 * 3 - 2).
Proof.
  apply (fib_makes_linearly_many_calls "####" 3 3).
  - lia.
  - vm_compute. lia.
Defined.
